(** * facturationAi: the parse / edit / export controller of [frontend/src/App.js]

    A shallow embedding of the React component [App]: its five state cells,
    the two asynchronous handlers [handleParse] and [handleGeneratePDF], the
    synchronous [handleItemChange], and the event loop that interleaves user
    events with the completion of pending requests. *)

From Stdlib Require Import PrimFloat ZArith Strings.Byte.
From stdpp Require Import gmap strings list pretty.

Local Open Scope string_scope.

(** ** JavaScript values

    The values that [JSON.parse] produces and that the component stores or
    sends: numbers are binary64 floats, arrays are lists, objects are finite
    maps from property names to values.  [undefined] is not a member of the
    type; a property read that yields [undefined] is [None] (see [member]).
    A [string] stands for a JavaScript string whose code units are all below
    256, one character per code unit. *)

Module JS.

#[warnings="-register-all"]
Inductive value :=
| VNull
| VBool (b : bool)
| VNum (x : float)
| VStr (s : string)
| VArr (l : list value)
| VObj (m : gmap string value).

Inductive exn :=
| TypeError (msg : string)
| SyntaxError (msg : string)
| Error (msg : string).

(** The completion of an expression: a value, or a thrown exception. *)
Inductive completion (A : Type) :=
| Normal (a : A)
| Throw (e : exn).
Arguments Normal {A} a.
Arguments Throw {A} e.

(** ToBoolean. *)
Definition truthy (v : value) : bool :=
  match v with
  | VNull => false
  | VBool b => b
  | VNum x => negb (PrimFloat.is_zero x || PrimFloat.is_nan x)
  | VStr s => negb (bool_decide (s = ""))
  | VArr _ | VObj _ => true
  end.

(** ToBoolean of a property read: [undefined] is falsy. *)
Definition truthy_opt (o : option value) : bool :=
  match o with
  | Some v => truthy v
  | None => false
  end.

(** [v.k] for a property name [k] that no built-in prototype defines and
    that is neither an array index nor [length] (the component only reads
    [data.items]): reading from [null] throws, an object yields its own
    property or [undefined], every other value yields [undefined]. *)
Definition member (v : value) (k : string) : completion (option value) :=
  match v with
  | VNull => Throw (TypeError "Cannot read properties of null")
  | VObj m => Normal (m !! k)
  | _ => Normal None
  end.

(** The one-character strings of a string, in order. *)
Fixpoint string_chars (s : string) : list string :=
  match s with
  | EmptyString => []
  | String a s' => String a EmptyString :: string_chars s'
  end.

(** Index-keyed properties ["0"], ["1"], ... of an array-like. *)
Definition indexed (l : list value) : gmap string value :=
  list_to_map (imap (λ i x, (pretty i, x)) l).

(** The own enumerable string-keyed properties that the object spread
    [{ ...v }] copies: those of an object, the indices of an array or a
    string, nothing for [null], booleans and numbers. *)
Definition own_props (v : value) : gmap string value :=
  match v with
  | VObj m => m
  | VArr l => indexed l
  | VStr s => indexed (VStr <$> string_chars s)
  | VNull | VBool _ | VNum _ => ∅
  end.

(** [{ ...item, [field]: value }]. *)
Definition spread_with (item : value) (field : string) (v : value) : value :=
  VObj (<[field := v]> (own_props item)).

(** [arr.map((x, i) => f(x, i))]; a value without a [map] method throws. *)
Definition array_map (f : value → nat → value) (arr : value) : completion value :=
  match arr with
  | VArr l => Normal (VArr (imap (λ i x, f x i) l))
  | _ => Throw (TypeError "items.map is not a function")
  end.

(** Whether a parsed body is an object that has the own property [k]. *)
Definition has_key (v : value) (k : string) : bool :=
  match v with
  | VObj m => bool_decide (is_Some (m !! k))
  | _ => false
  end.

End JS.
Import JS.

(** ** The component state (lines 12-16) *)

Definition DOC_TYPES : list string :=
  ["Facture"; "Devis"; "Bon de commande"; "Bon de livraison"].

Record State := mkState {
  prompt : string;
  docType : string;
  items : value;
  loading : bool;
  error : string;
}.

Definition initial : State :=
  {| prompt := ""; docType := nth 0 DOC_TYPES ""; items := VArr [];
     loading := false; error := "" |}.

(** ** The outside world: requests, responses, downloads *)

Definition Blob := list byte.

Record Request := mkRequest {
  url : string;
  method : string;
  headers : list (string * string);
  (** the value handed to [JSON.stringify] *)
  body : value;
}.

(** What a [fetch] resolves to: the HTTP status, what [res.json()] resolves to
    ([None] when it rejects on a body that is not JSON) and what
    [res.blob()] resolves to ([None] when reading the body fails). *)
Record Response := mkResponse {
  status : Z;
  res_json : option value;
  res_blob : option Blob;
}.

(** [res.ok]: the status is in the range 200-299. *)
Definition ok (res : Response) : bool :=
  (200 <=? status res)%Z && (status res <=? 299)%Z.

Inductive fetch_result :=
| NetworkFailure
| Responded (res : Response).

(** ** Handler programs

    The body of a handler is a tree of state-setter calls and I/O actions
    with one suspension point, the [await] of a [fetch]. *)

Inductive op :=
| SetPrompt (text : string)
| SetDocType (t : string)
| SetItems (v : value)
| SetLoading (b : bool)
| SetError (m : string)
| Download (filename : string) (payload : Blob).

Inductive prog (A : Type) :=
| Ret (a : A)
| Raise (e : exn)
| Act (o : op) (k : prog A)
| Await (req : Request) (k : fetch_result → prog A).
Arguments Ret {A} a.
Arguments Raise {A} e.
Arguments Act {A} o k.
Arguments Await {A} req k.

Fixpoint bind {A B} (p : prog A) (f : A → prog B) : prog B :=
  match p with
  | Ret a => f a
  | Raise e => Raise e
  | Act o k => Act o (bind k f)
  | Await req k => Await req (λ fr, bind (k fr) f)
  end.

(** [try { p } catch (e) { h e }]. *)
Fixpoint try_catch {A} (p : prog A) (h : exn → prog A) : prog A :=
  match p with
  | Ret a => Ret a
  | Raise e => h e
  | Act o k => Act o (try_catch k h)
  | Await req k => Await req (λ fr, try_catch (k fr) h)
  end.

(** [prog] is a monad; stdpp's [x ← p; q] and [p ;; q] sequence programs. *)
#[global] Instance prog_ret : MRet prog := @Ret.
#[global] Instance prog_bind : MBind prog := λ A B f p, bind p f.

Definition lift {A} (c : completion A) : prog A :=
  match c with
  | Normal a => Ret a
  | Throw e => Raise e
  end.

Definition setItems (v : value) : prog unit := Act (SetItems v) (Ret tt).
Definition setLoading (b : bool) : prog unit := Act (SetLoading b) (Ret tt).
Definition setError (m : string) : prog unit := Act (SetError m) (Ret tt).
Definition throw {A} (e : exn) : prog A := Raise e.

(** [await fetch(url, { method: 'POST', headers: {...}, body: JSON.stringify(b) })] *)
Definition fetch_post (u : string) (b : value) : prog Response :=
  Await {| url := u; method := "POST";
           headers := [("Content-Type", "application/json")]; body := b |}
        (λ fr, match fr with
               | NetworkFailure => Raise (TypeError "Failed to fetch")
               | Responded res => Ret res
               end).

(** [await res.json()] *)
Definition json (res : Response) : prog value :=
  match res_json res with
  | Some data => Ret data
  | None => Raise (SyntaxError "Unexpected token")
  end.

(** [await res.blob()] *)
Definition blob (res : Response) : prog Blob :=
  match res_blob res with
  | Some b => Ret b
  | None => Raise (TypeError "Failed to read the body")
  end.

(** Lines 52-57: an object URL for the blob, an anchor whose [download]
    attribute is the file name, a click on it, the URL revoked. *)
Definition save_as (filename : string) (payload : Blob) : prog unit :=
  Act (Download filename payload) (Ret tt).

(** ** The handlers *)

Definition PARSE_URL := "http://localhost:5000/api/parse".
Definition PDF_URL := "http://localhost:5000/api/generate-pdf".

(** Lines 18-35.  [snap] is the render whose closure the handler runs in. *)
Definition handleParse (snap : State) : prog unit :=
  setLoading true ;;
  setError "" ;;
  setItems (VArr []) ;;
  try_catch
    (res ← fetch_post PARSE_URL (VObj {[ "prompt" := VStr (prompt snap) ]});
     data ← json res;
     data_items ← lift (member data "items");
     match data_items with
     | Some v => if truthy v then setItems v else setError "No items found."
     | None => setError "No items found."
     end)
    (λ e, setError "Error parsing prompt.") ;;
  setLoading false.

(** Lines 41-62. *)
Definition handleGeneratePDF (snap : State) : prog unit :=
  setLoading true ;;
  setError "" ;;
  try_catch
    (res ← fetch_post PDF_URL
             (VObj (<[ "items" := items snap ]>
                      {[ "docType" := VStr (docType snap) ]}));
     (if negb (ok res) then throw (Error "PDF generation failed") else Ret tt) ;;
     b ← blob res;
     save_as (docType snap ++ ".pdf") b)
    (λ e, setError "Error generating PDF.") ;;
  setLoading false.

(** Line 38, the updater handed to [setItems]. *)
Definition change_item (idx : Z) (field : string) (v : value) (arr : value)
  : completion value :=
  array_map
    (λ item i, if bool_decide (Z.of_nat i = idx) then spread_with item field v else item)
    arr.

(** Lines 37-39. *)
Definition handleItemChange (idx : Z) (field : string) (v : value) (s : State)
  : completion State :=
  match change_item idx field v (items s) with
  | Normal arr =>
      Normal {| prompt := prompt s; docType := docType s; items := arr;
                loading := loading s; error := error s |}
  | Throw e => Throw e
  end.

(** ** Running a handler *)

Definition apply_op (o : op) (s : State) : State :=
  match o with
  | SetPrompt text =>
      {| prompt := text; docType := docType s; items := items s;
         loading := loading s; error := error s |}
  | SetDocType t =>
      {| prompt := prompt s; docType := t; items := items s;
         loading := loading s; error := error s |}
  | SetItems v =>
      {| prompt := prompt s; docType := docType s; items := v;
         loading := loading s; error := error s |}
  | SetLoading b =>
      {| prompt := prompt s; docType := docType s; items := items s;
         loading := b; error := error s |}
  | SetError m =>
      {| prompt := prompt s; docType := docType s; items := items s;
         loading := loading s; error := m |}
  | Download _ _ => s
  end.

(** What the outside world observes. *)
Inductive effect :=
| Sent (req : Request)
| Saved (filename : string) (payload : Blob).

(** Each effect is logged with the component state at the moment it happens. *)
Definition Log := list (State * effect).

Definition log_op (o : op) (s : State) : Log :=
  match o with
  | Download filename payload => [(s, Saved filename payload)]
  | _ => []
  end.

Inductive outcome (A : Type) :=
| Finished (s : State) (l : Log) (r : completion A)
| Suspended (s : State) (l : Log) (k : fetch_result → prog A).
Arguments Finished {A} s l r.
Arguments Suspended {A} s l k.

(** Run a program up to its end or to its next [await]. *)
Fixpoint run {A} (p : prog A) (s : State) (l : Log) : outcome A :=
  match p with
  | Ret a => Finished s l (Normal a)
  | Raise e => Finished s l (Throw e)
  | Act o k => run k (apply_op o s) (l ++ log_op o s)%list
  | Await req k => Suspended s (l ++ [(s, Sent req)])%list k
  end.

(** Resume a suspended program with the result of its request. *)
Definition resume {A} (o : outcome A) (fr : fetch_result) : outcome A :=
  match o with
  | Suspended s l k => run (k fr) s l
  | Finished _ _ _ => o
  end.

(** A handler invoked in state [s] whose request is answered by [fr], with
    no other event in between. *)
Definition invoke (h : State → prog unit) (fr : fetch_result) (s : State)
  : outcome unit :=
  resume (run (h s) s []) fr.

Definition final {A} (o : outcome A) : State :=
  match o with
  | Finished s _ _ => s
  | Suspended s _ _ => s
  end.

Definition log_of {A} (o : outcome A) : Log :=
  match o with
  | Finished _ l _ => l
  | Suspended _ l _ => l
  end.

Definition effects (l : Log) : list effect := snd <$> l.

(** ** The rendered controls (lines 64-109) *)

(** Line 77: [disabled={loading || !prompt}]. *)
Definition parse_disabled (s : State) : bool :=
  loading s || negb (truthy (VStr (prompt s))).

(** Lines 81 and 94: the rows of the table, one per item of a non-empty
    array.  (For any other value of [items] the test [items.length > 0] is
    false or the row mapping fails, and no control of the table is
    available.) *)
Definition rows (s : State) : list value :=
  match items s with
  | VArr l => l
  | _ => []
  end.

Definition table_rendered (s : State) : bool :=
  bool_decide (0 < length (rows s))%nat.

(** Line 105: [disabled={loading}]. *)
Definition generate_disabled (s : State) : bool := loading s.

(** The [field] arguments of the four editable columns (lines 97-100). *)
Definition COLUMNS : list string := ["reference"; "name"; "quantity"; "unit_price"].

(** ** The session: component state, pending requests, observed effects *)

Record Session := mkSession {
  st : State;
  inflight : list (fetch_result → prog unit);
  log : Log;
}.

Definition init_session : Session :=
  {| st := initial; inflight := []; log := [] |}.

(** What can happen to a session: the user types in the prompt, selects a
    document type, clicks a button or edits a cell, or the [n]-th pending
    request is answered. *)
Inductive event :=
| ChangePrompt (text : string)
| ChangeDocType (t : string)
| ClickParse
| ClickGeneratePDF
| EditCell (idx : nat) (field : string) (text : string)
| Resolve (n : nat) (fr : fetch_result).

(** Fold the outcome of a run back into the session. *)
Definition settle (σ : Session) (rest : list (fetch_result → prog unit))
    (o : outcome unit) : Session :=
  match o with
  | Finished s l _ => {| st := s; inflight := rest; log := l |}
  | Suspended s l k => {| st := s; inflight := (rest ++ [k])%list; log := l |}
  end.

(** A click on a button runs its handler unless the button is disabled. *)
Definition click (disabled : bool) (h : State → prog unit) (σ : Session) : Session :=
  if disabled then σ
  else settle σ (inflight σ) (run (h (st σ)) (st σ) (log σ)).

(** One turn of the event loop.  An event that the rendered page cannot
    produce (a type that is not an option, a click on a button that is not
    rendered, an answer to a request that is not pending) changes nothing. *)
Definition step (e : event) (σ : Session) : Session :=
  match e with
  | ChangePrompt text =>
      {| st := apply_op (SetPrompt text) (st σ);
         inflight := inflight σ; log := log σ |}
  | ChangeDocType t =>
      if bool_decide (t ∈ DOC_TYPES)
      then {| st := apply_op (SetDocType t) (st σ);
              inflight := inflight σ; log := log σ |}
      else σ
  | ClickParse => click (parse_disabled (st σ)) handleParse σ
  | ClickGeneratePDF =>
      if table_rendered (st σ)
      then click (generate_disabled (st σ)) handleGeneratePDF σ
      else σ
  | EditCell idx field text =>
      (* the inputs of row [idx], one per column *)
      if bool_decide (idx < length (rows (st σ)))%nat && bool_decide (field ∈ COLUMNS)
      then match handleItemChange (Z.of_nat idx) field (VStr text) (st σ) with
           | Normal s => {| st := s; inflight := inflight σ; log := log σ |}
           | Throw _ => σ
           end
      else σ
  | Resolve n fr =>
      match inflight σ !! n with
      | Some k => settle σ (delete n (inflight σ)) (run (k fr) (st σ) (log σ))
      | None => σ
      end
  end.

Inductive reachable : Session → Prop :=
| reachable_init : reachable init_session
| reachable_step σ e : reachable σ → reachable (step e σ).

(** ** The spec's vocabulary *)

(** The spec's single status, read off [loading] and [error] (lines 79-80). *)
Inductive Status :=
| Idle
| Loading
| Failed (message : string).

Definition status_of (s : State) : Status :=
  if loading s then Loading
  else if bool_decide (error s = "") then Idle
  else Failed (error s).

(** The spec's names for the four document types, in the order of
    [DOC_TYPES]. *)
Inductive DocumentType := Invoice | Quote | PurchaseOrder | DeliveryNote.

Definition doc_type_index (d : DocumentType) : nat :=
  match d with
  | Invoice => 0 | Quote => 1 | PurchaseOrder => 2 | DeliveryNote => 3
  end.

Definition doc_type_label (d : DocumentType) : string :=
  nth (doc_type_index d) DOC_TYPES "".

(** An export fails when the request is rejected, the response is not 2xx,
    or its body cannot be read. *)
Definition export_fails (fr : fetch_result) : bool :=
  match fr with
  | NetworkFailure => true
  | Responded res => negb (ok res) || bool_decide (res_blob res = None)
  end.

(** ** Paths of the two handlers *)

(** The state update chosen by [handleParse] for each answer. *)
Inductive parse_path : fetch_result → op → Prop :=
| parse_network :
    parse_path NetworkFailure (SetError "Error parsing prompt.")
| parse_malformed res :
    res_json res = None →
    parse_path (Responded res) (SetError "Error parsing prompt.")
| parse_throws res data e :
    res_json res = Some data →
    member data "items" = Throw e →
    parse_path (Responded res) (SetError "Error parsing prompt.")
| parse_items res data v :
    res_json res = Some data →
    member data "items" = Normal (Some v) →
    truthy v = true →
    parse_path (Responded res) (SetItems v)
| parse_falsy res data o :
    res_json res = Some data →
    member data "items" = Normal o →
    truthy_opt o = false →
    parse_path (Responded res) (SetError "No items found.").

(** The update or download chosen by [handleGeneratePDF] for each answer. *)
Inductive export_path (snap : State) : fetch_result → op → Prop :=
| export_network :
    export_path snap NetworkFailure (SetError "Error generating PDF.")
| export_not_ok res :
    ok res = false →
    export_path snap (Responded res) (SetError "Error generating PDF.")
| export_unreadable res :
    ok res = true →
    res_blob res = None →
    export_path snap (Responded res) (SetError "Error generating PDF.")
| export_saved res b :
    ok res = true →
    res_blob res = Some b →
    export_path snap (Responded res) (Download (docType snap ++ ".pdf") b).

(** A continuation that, whatever the answer and whatever the state it is
    resumed in, performs one operation allowed by [P], clears the loading
    flag and ends normally. *)
Definition resumes_with (P : fetch_result → op → Prop)
    (k : fetch_result → prog unit) : Prop :=
  ∀ fr s l, ∃ o,
    P fr o ∧
    run (k fr) s l =
      Finished (apply_op (SetLoading false) (apply_op o s))
               (l ++ log_op o s)%list (Normal tt).

(** The state in which [handleParse] issues its request. *)
Definition parsing (s : State) : State :=
  {| prompt := prompt s; docType := docType s; items := VArr [];
     loading := true; error := "" |}.

(** The state in which [handleGeneratePDF] issues its request. *)
Definition exporting (s : State) : State :=
  {| prompt := prompt s; docType := docType s; items := items s;
     loading := true; error := "" |}.

Definition parse_request (snap : State) : Request :=
  {| url := PARSE_URL; method := "POST";
     headers := [("Content-Type", "application/json")];
     body := VObj {[ "prompt" := VStr (prompt snap) ]} |}.

Definition pdf_request (snap : State) : Request :=
  {| url := PDF_URL; method := "POST";
     headers := [("Content-Type", "application/json")];
     body := VObj (<[ "items" := items snap ]>
                     {[ "docType" := VStr (docType snap) ]}) |}.

(** Operations that touch neither the prompt nor the document type. *)
Definition framed (o : op) : Prop :=
  match o with
  | SetPrompt _ | SetDocType _ => False
  | _ => True
  end.

(** A pending continuation settles: resumed in any state with any answer it
    ends normally with the loading flag cleared and the prompt and document
    type as they were. *)
Definition settles (k : fetch_result → prog unit) : Prop :=
  ∀ fr s l, ∃ s' l',
    run (k fr) s l = Finished s' l' (Normal tt) ∧
    loading s' = false ∧ prompt s' = prompt s ∧ docType s' = docType s.

(** Invariant of the event loop: every pending continuation settles, and
    the loading flag is only set while a request is pending. *)
Definition session_inv (σ : Session) : Prop :=
  Forall settles (inflight σ) ∧ (inflight σ = [] → loading (st σ) = false).

(** ** Sample sessions and answers *)

Definition widget_rows : list value :=
  [VObj (<["name" := VStr "Widget A"]> {["quantity" := VNum 2]});
   VObj (<["name" := VStr "Widget B"]> {["quantity" := VNum 5]})].

Definition two_widgets : State :=
  {| prompt := "2x Widget A at $10, 5x Widget B at $20 for Client X";
     docType := "Devis"; items := VArr widget_rows;
     loading := false; error := "" |}.

Definition typed_and_clicked : Session :=
  step ClickParse (step (ChangePrompt "2x Widget A at $10") init_session).

Definition answer (code : Z) (data : value) : fetch_result :=
  Responded {| status := code; res_json := Some data; res_blob := None |}.

Definition pdf_answer (code : Z) (payload : Blob) : fetch_result :=
  Responded {| status := code; res_json := None; res_blob := Some payload |}.

Definition pdf_bytes : Blob := [x25; x50; x44; x46]%byte.

Definition quote_selected : State :=
  {| prompt := prompt two_widgets; docType := doc_type_label Quote;
     items := items two_widgets; loading := false; error := "" |}.

(** ** The rows of the table (lines 94-102) *)

#[global] Instance completion_ret : MRet completion := @Normal.
#[global] Instance completion_bind : MBind completion :=
  λ A B f c, match c with
             | Normal a => f a
             | Throw e => Throw e
             end.

(** [x || '']: the operand when it is truthy, the empty string otherwise. *)
Definition or_empty (o : option value) : value :=
  match o with
  | Some v => if truthy v then v else VStr ""
  | None => VStr ""
  end.

(** [item.k || ''], the [value] of an input of the row. *)
Definition cell (item : value) (k : string) : completion value :=
  o ← member item k; mret (or_empty o).

Record Row := mkRow {
  row_key : nat;
  row_number : nat;
  cell_reference : value;
  cell_name : value;
  cell_quantity : value;
  cell_unit_price : value;
}.

(** Lines 95-101: the row of [item] at position [idx]. *)
Definition render_row (item : value) (idx : nat) : completion Row :=
  r ← cell item "reference";
  n ← cell item "name";
  q ← cell item "quantity";
  p ← cell item "unit_price";
  mret {| row_key := idx; row_number := idx + 1; cell_reference := r;
          cell_name := n; cell_quantity := q; cell_unit_price := p |}.

(** Line 94: [items.map((item, idx) => ...)] over an array, from position
    [idx] on. *)
Fixpoint render_rows_from (idx : nat) (l : list value) : completion (list Row) :=
  match l with
  | [] => Normal []
  | item :: l' =>
      r ← render_row item idx;
      rs ← render_rows_from (S idx) l';
      mret (r :: rs)
  end.

Definition render_rows (l : list value) : completion (list Row) :=
  render_rows_from 0 l.

(** The cell of a rendered row under a column name. *)
Definition row_cell (r : Row) (k : string) : option value :=
  if bool_decide (k = "reference") then Some (cell_reference r)
  else if bool_decide (k = "name") then Some (cell_name r)
  else if bool_decide (k = "quantity") then Some (cell_quantity r)
  else if bool_decide (k = "unit_price") then Some (cell_unit_price r)
  else None.

(** ** Runs of the event loop *)

(** The events of the user, as opposed to the answer to a request. *)
Definition user_event (e : event) : Prop :=
  match e with
  | Resolve _ _ => False
  | _ => True
  end.

Definition run_events (es : list event) (σ : Session) : Session :=
  foldl (λ σ' e, step e σ') σ es.

(** The messages that [setError] is called with, and the empty one. *)
Definition MESSAGES : list string :=
  [""; "No items found."; "Error parsing prompt."; "Error generating PDF."].

(** What a pending continuation is: that of a parse, the table being empty
    meanwhile, or that of an export started in a render [snap]. *)
Definition pending_kind (σ : Session) (k : fetch_result → prog unit) : Prop :=
  (resumes_with parse_path k ∧ items (st σ) = VArr []) ∨
  (∃ snap, resumes_with (export_path snap) k ∧ docType snap ∈ DOC_TYPES).

(** A logged effect of the component: a request to one of the two services,
    sent while loading with no error shown, or a file named after a
    document type. *)
Definition good_effect (x : State * effect) : Prop :=
  match x.2 with
  | Sent req =>
      loading x.1 = true ∧ error x.1 = "" ∧ method req = "POST" ∧
      (url req = PARSE_URL ∨ url req = PDF_URL)
  | Saved filename _ => ∃ t, t ∈ DOC_TYPES ∧ filename = t ++ ".pdf"
  end.

(** The invariant of the event loop with the page's own gating. *)
Definition wf (σ : Session) : Prop :=
  docType (st σ) ∈ DOC_TYPES ∧
  error (st σ) ∈ MESSAGES ∧
  Forall good_effect (log σ) ∧
  ((loading (st σ) = false ∧ inflight σ = []) ∨
   (loading (st σ) = true ∧ error (st σ) = "" ∧
    ∃ k, inflight σ = [k] ∧ pending_kind σ k)).

(** A session in which a parse has filled the table and the quote type is
    selected. *)
Definition table_filled : Session :=
  step (ChangeDocType "Devis")
    (step (Resolve 0 (answer 200 (VObj {["items" := VArr widget_rows]})))
       typed_and_clicked).

(** A logged request that carries something: a parse request with a
    non-empty prompt and nothing else, or an export request with a
    non-empty array of items and a document type of [DOC_TYPES]. *)
Definition carries_input (x : State * effect) : Prop :=
  match x.2 with
  | Sent req =>
      (url req = PARSE_URL ∧
       ∃ p, p ≠ "" ∧ body req = VObj {["prompt" := VStr p]}) ∨
      (url req = PDF_URL ∧
       ∃ l t, l ≠ [] ∧ t ∈ DOC_TYPES ∧
              body req = VObj (<["items" := VArr l]> {["docType" := VStr t]}))
  | Saved _ _ => True
  end.

(** The state in which Parse was clicked in [typed_and_clicked]. *)
Definition typed : State :=
  st (step (ChangePrompt "2x Widget A at $10") init_session).

(** What a user may do while an export, or a parse, is pending. *)
Definition while_exporting : list event :=
  [ChangeDocType "Facture"; EditCell 0 "name" "Widget C"; ChangePrompt "more"].

Definition while_parsing : list event :=
  [ChangePrompt "3x Widget D"; ClickParse; EditCell 0 "name" "x"; ClickGeneratePDF].

(** * Properties *)

(** ** What a handler does after its request is answered *)

Create HintDb paths.
#[local] Hint Constructors parse_path export_path : paths.

Ltac finish_path := eexists; split; [eauto with paths | rewrite ?app_nil_r; reflexivity].

Lemma handleParse_run snap s l :
  ∃ k, run (handleParse snap) s l =
         Suspended (parsing s) (l ++ [(parsing s, Sent (parse_request snap))])%list k
       ∧ resumes_with parse_path k.
Proof.
  eexists; split; [cbn; rewrite !app_nil_r; reflexivity |].
  intros [|res] s1 l1; cbn; [finish_path |].
  unfold json. destruct (res_json res) as [data|] eqn:Hjson; cbn; [| finish_path].
  destruct (member data "items") as [[v|]|e] eqn:Hmem; cbn; [| finish_path ..].
  destruct (truthy v) eqn:Htruthy; cbn; finish_path.
Qed.

Lemma handleGeneratePDF_run snap s l :
  ∃ k, run (handleGeneratePDF snap) s l =
         Suspended (exporting s) (l ++ [(exporting s, Sent (pdf_request snap))])%list k
       ∧ resumes_with (export_path snap) k.
Proof.
  eexists; split; [cbn; rewrite !app_nil_r; reflexivity |].
  intros [|res] s1 l1; cbn; [finish_path |].
  destruct (ok res) eqn:Hok; cbn; [| finish_path].
  unfold blob. destruct (res_blob res) as [b|] eqn:Hblob; cbn; finish_path.
Qed.

Lemma invoke_handleParse fr s :
  ∃ o, parse_path fr o ∧
       invoke handleParse fr s =
         Finished (apply_op (SetLoading false) (apply_op o (parsing s)))
                  [(parsing s, Sent (parse_request s))] (Normal tt).
Proof.
  unfold invoke. destruct (handleParse_run s s []) as (k & -> & Hk).
  destruct (Hk fr (parsing s) [(parsing s, Sent (parse_request s))])
    as (o & Hpath & Hrun).
  exists o; split; [assumption |].
  cbn [resume app] in *. rewrite Hrun.
  destruct Hpath; cbn; reflexivity.
Qed.

Lemma invoke_handleGeneratePDF fr s :
  ∃ o, export_path s fr o ∧
       invoke handleGeneratePDF fr s =
         Finished (apply_op (SetLoading false) (apply_op o (exporting s)))
                  ((exporting s, Sent (pdf_request s)) :: log_op o (exporting s))
                  (Normal tt).
Proof.
  unfold invoke. destruct (handleGeneratePDF_run s s []) as (k & -> & Hk).
  destruct (Hk fr (exporting s) [(exporting s, Sent (pdf_request s))])
    as (o & Hpath & Hrun).
  exists o; split; [assumption |].
  cbn [resume app] in *. rewrite Hrun. reflexivity.
Qed.

Lemma parse_path_framed fr o : parse_path fr o → framed o.
Proof. destruct 1; exact I. Qed.

Lemma export_path_framed snap fr o : export_path snap fr o → framed o.
Proof. destruct 1; exact I. Qed.

Lemma framed_prompt o s : framed o → prompt (apply_op o s) = prompt s.
Proof. destruct o; cbn; tauto. Qed.

Lemma framed_docType o s : framed o → docType (apply_op o s) = docType s.
Proof. destruct o; cbn; tauto. Qed.

Lemma resumes_with_settles P k :
  (∀ fr o, P fr o → framed o) → resumes_with P k → settles k.
Proof.
  intros HP Hk fr s l. destruct (Hk fr s l) as (o & Hpath & ->).
  do 2 eexists; split; [reflexivity |].
  apply HP in Hpath. cbn.
  auto using framed_prompt, framed_docType.
Qed.

Lemma click_parse_enabled σ :
  parse_disabled (st σ) = false →
  ∃ k, step ClickParse σ =
         {| st := parsing (st σ); inflight := (inflight σ ++ [k])%list;
            log := (log σ ++ [(parsing (st σ), Sent (parse_request (st σ)))])%list |}
       ∧ settles k.
Proof.
  intros Hen. cbn. unfold click. rewrite Hen.
  destruct (handleParse_run (st σ) (st σ) (log σ)) as (k & -> & Hk).
  exists k; split; [reflexivity |].
  eapply resumes_with_settles; [apply parse_path_framed | exact Hk].
Qed.

Lemma click_generate_enabled σ :
  table_rendered (st σ) = true → generate_disabled (st σ) = false →
  ∃ k, step ClickGeneratePDF σ =
         {| st := exporting (st σ); inflight := (inflight σ ++ [k])%list;
            log := (log σ ++ [(exporting (st σ), Sent (pdf_request (st σ)))])%list |}
       ∧ settles k.
Proof.
  intros Htab Hen. cbn. unfold click. rewrite Htab, Hen.
  destruct (handleGeneratePDF_run (st σ) (st σ) (log σ)) as (k & -> & Hk).
  exists k; split; [reflexivity |].
  eapply resumes_with_settles; [apply export_path_framed | exact Hk].
Qed.

Lemma handleItemChange_frame idx field v s s' :
  handleItemChange idx field v s = Normal s' →
  prompt s' = prompt s ∧ docType s' = docType s ∧
  loading s' = loading s ∧ error s' = error s.
Proof.
  unfold handleItemChange.
  destruct (change_item idx field v (items s)); intros [= <-]; auto.
Qed.

Lemma session_inv_step e σ : session_inv σ → session_inv (step e σ).
Proof.
  intros [Hall Hidle]. destruct e as [text | t | | | idx field text | n fr].
  - split; [exact Hall | exact Hidle].
  - cbn. case_bool_decide; split; auto.
  - destruct (parse_disabled (st σ)) eqn:Hdis.
    + cbn. unfold click. rewrite Hdis. split; auto.
    + destruct (click_parse_enabled σ Hdis) as (k & -> & Hk). split; cbn.
      * apply Forall_app; split; [exact Hall | repeat constructor; exact Hk].
      * intros Hnil. by apply app_nil in Hnil as [_ ?].
  - destruct (table_rendered (st σ)) eqn:Htab;
      [destruct (generate_disabled (st σ)) eqn:Hdis |].
    + cbn. unfold click. rewrite Htab, Hdis. split; auto.
    + destruct (click_generate_enabled σ Htab Hdis) as (k & -> & Hk). split; cbn.
      * apply Forall_app; split; [exact Hall | repeat constructor; exact Hk].
      * intros Hnil. by apply app_nil in Hnil as [_ ?].
    + cbn. rewrite Htab. split; auto.
  - cbn. destruct (bool_decide (idx < length (rows (st σ)))%nat && bool_decide (field ∈ COLUMNS));
      [| split; auto].
    destruct (handleItemChange _ _ _ _) as [s'|] eqn:Hedit; [| split; auto].
    apply handleItemChange_frame in Hedit as (_ & _ & Hload & _).
    split; cbn; [exact Hall | rewrite Hload; exact Hidle].
  - cbn. destruct (inflight σ !! n) as [k|] eqn:Hk; [| split; auto].
    pose proof (Forall_lookup_1 _ _ _ _ Hall Hk) as Hsettles.
    destruct (Hsettles fr (st σ) (log σ)) as (s' & l' & -> & Hload & _).
    split; cbn; [| auto].
    unfold delete. apply Forall_delete. exact Hall.
Qed.

Lemma reachable_inv σ : reachable σ → session_inv σ.
Proof.
  induction 1 as [| σ e _ IH]; [| by apply session_inv_step].
  split; [constructor | reflexivity].
Qed.

Lemma step_frame e σ :
  session_inv σ →
  ((∀ text, e ≠ ChangePrompt text) → prompt (st (step e σ)) = prompt (st σ)) ∧
  ((∀ t, e ≠ ChangeDocType t) → docType (st (step e σ)) = docType (st σ)).
Proof.
  intros [Hall _]. destruct e as [text | t | | | idx field text | n fr].
  - split; [intros Hne; by destruct (Hne text) | reflexivity].
  - split; [cbn; by case_bool_decide | intros Hne; by destruct (Hne t)].
  - destruct (parse_disabled (st σ)) eqn:Hdis.
    + cbn. unfold click. by rewrite Hdis.
    + by destruct (click_parse_enabled σ Hdis) as (k & -> & _).
  - destruct (table_rendered (st σ)) eqn:Htab;
      [destruct (generate_disabled (st σ)) eqn:Hdis |].
    + cbn. unfold click. by rewrite Htab, Hdis.
    + by destruct (click_generate_enabled σ Htab Hdis) as (k & -> & _).
    + cbn. by rewrite Htab.
  - cbn. destruct (bool_decide (idx < length (rows (st σ)))%nat && bool_decide (field ∈ COLUMNS)); [| done].
    destruct (handleItemChange _ _ _ _) as [s'|] eqn:Hedit; [| done].
    apply handleItemChange_frame in Hedit as (Hp & Hd & _). cbn. by rewrite Hp, Hd.
  - cbn. destruct (inflight σ !! n) as [k|] eqn:Hk; [| done].
    pose proof (Forall_lookup_1 _ _ _ _ Hall Hk) as Hsettles.
    destruct (Hsettles fr (st σ) (log σ)) as (s' & l' & -> & _ & Hp & Hd).
    cbn. by rewrite Hp, Hd.
Qed.

Lemma status_of_not_loading s : loading s = false → status_of s ≠ Loading.
Proof. unfold status_of. intros ->. by case_bool_decide. Qed.

(** * The claims *)

(** C1: every parse and every export, on every path (items received, no
    items, malformed body, rejected request, non-2xx response), ends
    normally with the loading flag false, so the status is not Loading; in
    the event loop this holds whenever a pending request is answered,
    whatever happened in between, and a session with no pending request is
    never loading. *)
Theorem loading_cleared_when_done :
  (∀ fr s, ∃ s' l,
      invoke handleParse fr s = Finished s' l (Normal tt) ∧
      loading s' = false ∧ status_of s' ≠ Loading) ∧
  (∀ fr s, ∃ s' l,
      invoke handleGeneratePDF fr s = Finished s' l (Normal tt) ∧
      loading s' = false ∧ status_of s' ≠ Loading) ∧
  (∀ σ n fr, reachable σ → is_Some (inflight σ !! n) →
      loading (st (step (Resolve n fr) σ)) = false ∧
      length (inflight (step (Resolve n fr) σ)) = pred (length (inflight σ))) ∧
  (∀ σ, reachable σ → inflight σ = [] → loading (st σ) = false).
Proof.
  split; [| split; [| split]].
  - intros fr s. destruct (invoke_handleParse fr s) as (o & _ & ->).
    do 2 eexists; split; [reflexivity |].
    split; [done | by apply status_of_not_loading].
  - intros fr s. destruct (invoke_handleGeneratePDF fr s) as (o & _ & ->).
    do 2 eexists; split; [reflexivity |].
    split; [done | by apply status_of_not_loading].
  - intros σ n fr Hreach [k Hk]. apply reachable_inv in Hreach as [Hall _].
    pose proof (Forall_lookup_1 _ _ _ _ Hall Hk) as Hsettles.
    cbn. rewrite Hk.
    destruct (Hsettles fr (st σ) (log σ)) as (s' & l' & -> & Hload & _). cbn.
    split; [exact Hload |].
    rewrite length_delete by eauto. lia.
  - intros σ Hreach. by apply reachable_inv in Hreach as [_ ?].
Qed.

Lemma typed_and_clicked_reachable : reachable typed_and_clicked.
Proof. repeat constructor. Qed.

Lemma loading_cleared_when_done_witness :
  loading (st typed_and_clicked) = true ∧
  loading (st (step (Resolve 0 NetworkFailure) typed_and_clicked)) = false.
Proof.
  split; [reflexivity |].
  apply (proj1 (proj2 (proj2 loading_cleared_when_done))).
  - exact typed_and_clicked_reachable.
  - vm_compute. eauto.
Defined.

(** ** Editing a cell *)

Lemma change_item_array idx field v l :
  change_item idx field v (VArr l) =
    Normal (VArr (imap (λ i item, if bool_decide (Z.of_nat i = idx)
                                  then spread_with item field v else item) l)).
Proof. reflexivity. Qed.

Lemma change_item_in_range (i : nat) field v (l : list value) item :
  l !! i = Some item →
  change_item (Z.of_nat i) field v (VArr l) =
    Normal (VArr (<[i := spread_with item field v]> l)).
Proof.
  intros Hi. rewrite change_item_array. do 2 f_equal.
  apply list_eq; intros j. rewrite list_lookup_imap.
  destruct (decide (j = i)) as [-> | Hne].
  - rewrite list_lookup_insert_eq by (by eapply lookup_lt_Some).
    rewrite Hi. cbn. by rewrite bool_decide_true.
  - rewrite list_lookup_insert_ne by done.
    destruct (l !! j); cbn; [| done].
    rewrite bool_decide_false; [done | lia].
Qed.

Lemma change_item_out_of_range idx field v (l : list value) :
  (idx < 0 ∨ Z.of_nat (length l) ≤ idx)%Z →
  change_item idx field v (VArr l) = Normal (VArr l).
Proof.
  intros Hout. rewrite change_item_array. do 2 f_equal.
  apply list_eq; intros j. rewrite list_lookup_imap.
  destruct (l !! j) eqn:Hj; cbn; [| done].
  apply lookup_lt_Some in Hj.
  rewrite bool_decide_false; [done | lia].
Qed.

(** C2: for every item list, every valid index, every field name (those of
    the four columns included) and every value, the edit yields a list of
    the same length in which every other position holds the item it held
    before, and the item at the index has the field set to the value; every
    other property of that item is as it was in the item before the edit
    (an item that is [null], a boolean or a number has none); nothing else
    in the state changes. *)
Theorem handleItemChange_changes_one_field
    (s : State) (l : list value) (i : nat) (field : string) (v : value) :
  items s = VArr l → (i < length l)%nat →
  ∃ l' item m',
    handleItemChange (Z.of_nat i) field v s =
      Normal {| prompt := prompt s; docType := docType s; items := VArr l';
                loading := loading s; error := error s |} ∧
    length l' = length l ∧
    (∀ j, j ≠ i → l' !! j = l !! j) ∧
    l !! i = Some item ∧
    l' !! i = Some (VObj m') ∧
    m' !! field = Some v ∧
    (∀ m, item = VObj m → ∀ f, f ≠ field → m' !! f = m !! f) ∧
    (item = VNull ∨ (∃ b, item = VBool b) ∨ (∃ x, item = VNum x) →
     ∀ f, f ≠ field → m' !! f = None).
Proof.
  intros Hitems Hi.
  destruct (lookup_lt_is_Some_2 l i Hi) as [item Hitem].
  exists (<[i := spread_with item field v]> l), item,
         (<[field := v]> (own_props item)).
  unfold handleItemChange. rewrite Hitems, (change_item_in_range _ _ _ _ _ Hitem).
  split; [reflexivity |]. split; [apply length_insert |].
  split; [intros j Hne; by apply list_lookup_insert_ne |].
  split; [exact Hitem |].
  split; [by apply list_lookup_insert_eq |].
  split; [apply lookup_insert_eq |].
  split.
  - intros m -> f Hne. by rewrite lookup_insert_ne.
  - intros [-> | [[b ->] | [x ->]]] f Hne; by rewrite lookup_insert_ne.
Qed.

Lemma handleItemChange_changes_one_field_witness :
  ∃ l' m',
    handleItemChange (Z.of_nat 1) "unit_price" (VStr "20") two_widgets =
      Normal {| prompt := prompt two_widgets; docType := docType two_widgets;
                items := VArr l';
                loading := loading two_widgets; error := error two_widgets |} ∧
    length l' = 2%nat ∧
    l' !! 0%nat = Some (VObj (<["name" := VStr "Widget A"]> {["quantity" := VNum 2]})) ∧
    l' !! 1%nat = Some (VObj m') ∧
    m' !! "unit_price" = Some (VStr "20") ∧
    m' !! "name" = Some (VStr "Widget B") ∧
    m' !! "quantity" = Some (VNum 5) ∧
    m' !! "reference" = None.
Proof.
  assert (1 < length widget_rows)%nat as Hlt by (cbn; lia).
  destruct (handleItemChange_changes_one_field
              two_widgets widget_rows 1 "unit_price" (VStr "20") eq_refl Hlt)
    as (l' & item & m' & Hrun & Hlen & Hothers & Hitem & Hnew & Hfield & Hobj & _).
  exists l', m'. injection Hitem as <-.
  split; [exact Hrun |]. split; [exact Hlen |].
  split; [by rewrite (Hothers 0%nat) |].
  split; [exact Hnew |]. split; [exact Hfield |].
  split; [| split].
  - by rewrite (Hobj _ eq_refl "name").
  - by rewrite (Hobj _ eq_refl "quantity").
  - by rewrite (Hobj _ eq_refl "reference").
Defined.

(** C8, as the code has it: [handleItemChange] checks neither the index nor
    the field name.  For an index that is not a position of the item list it
    ends normally and leaves the state as it was; for a valid index and any
    field name, also one that is not a column, it ends normally and sets
    that property on the item. *)
Theorem handleItemChange_is_unchecked :
  (∀ s l idx field v,
      items s = VArr l → (idx < 0 ∨ Z.of_nat (length l) ≤ idx)%Z →
      handleItemChange idx field v s = Normal s) ∧
  (∀ s l (i : nat) item field v,
      items s = VArr l → l !! i = Some item →
      handleItemChange (Z.of_nat i) field v s =
        Normal {| prompt := prompt s; docType := docType s;
                  items := VArr (<[i := VObj (<[field := v]> (own_props item))]> l);
                  loading := loading s; error := error s |}).
Proof.
  split.
  - intros s l idx field v Hitems Hout. unfold handleItemChange.
    rewrite Hitems, change_item_out_of_range by done.
    destruct s; cbn in *. by rewrite Hitems.
  - intros s l i item field v Hitems Hitem. unfold handleItemChange.
    by rewrite Hitems, (change_item_in_range _ _ _ _ _ Hitem).
Qed.

Lemma handleItemChange_is_unchecked_witness :
  handleItemChange 7 "reference" (VStr "R-1") two_widgets = Normal two_widgets ∧
  handleItemChange (-1) "reference" (VStr "R-1") two_widgets = Normal two_widgets ∧
  ∃ s', handleItemChange 0 "colour" (VStr "red") two_widgets = Normal s'.
Proof.
  split; [| split].
  - apply (proj1 handleItemChange_is_unchecked two_widgets _ 7%Z "reference" (VStr "R-1")
             eq_refl).
    right. cbn. lia.
  - apply (proj1 handleItemChange_is_unchecked two_widgets _ (-1)%Z "reference" (VStr "R-1")
             eq_refl).
    left. lia.
  - eexists.
    apply (proj2 handleItemChange_is_unchecked two_widgets _ 0%nat _ "colour" (VStr "red")
             eq_refl eq_refl).
Defined.

(** C8 as stated fails: an out-of-range index does not make the edit fail,
    and neither does a field name that is not a column. *)
Lemma handleItemChange_does_not_fail :
  ¬ (∃ e, handleItemChange 7 "reference" (VStr "R-1") two_widgets = Throw e) ∧
  ¬ (∃ e, handleItemChange 0 "colour" (VStr "red") two_widgets = Throw e).
Proof.
  split; intros [e He]; vm_compute in He; discriminate He.
Qed.

(** ** Parsing *)

(** C5: every invocation of [handleParse] issues its request in a state
    that is loading, has no error message and has the empty item list, and
    nothing but that request has been sent; whatever the answer, the final
    item list is either empty or the truthy [items] of the response body,
    never the table that was there before. *)
Theorem handleParse_clears_before_request (s : State) :
  (∃ k, run (handleParse s) s [] =
          Suspended (parsing s) [(parsing s, Sent (parse_request s))] k) ∧
  loading (parsing s) = true ∧
  error (parsing s) = "" ∧
  items (parsing s) = VArr [] ∧
  status_of (parsing s) = Loading ∧
  (∀ fr,
      items (final (invoke handleParse fr s)) = VArr [] ∨
      ∃ res data v,
        fr = Responded res ∧ res_json res = Some data ∧
        member data "items" = Normal (Some v) ∧ truthy v = true ∧
        items (final (invoke handleParse fr s)) = v).
Proof.
  split; [| repeat split].
  - destruct (handleParse_run s s []) as (k & Hrun & _). by exists k.
  - intros fr. destruct (invoke_handleParse fr s) as (o & Hpath & ->).
    destruct Hpath; cbn; eauto 10.
Qed.

(** C3, as the code has it: a body that is an object whose [items] is the
    empty list ends the parse with an empty table and no error; a body that
    is JSON other than [null] and has no [items] key ends it with the error
    "No items found." and an empty table; the body [null] ends it with
    "Error parsing prompt." instead. *)
Theorem parse_empty_items_vs_missing_items
    (s : State) (res : Response) (data : value) :
  res_json res = Some data →
  let s' := final (invoke handleParse (Responded res) s) in
  (∀ m, data = VObj m → m !! "items" = Some (VArr []) →
        items s' = VArr [] ∧ error s' = "" ∧ loading s' = false ∧
        status_of s' = Idle) ∧
  (data ≠ VNull → has_key data "items" = false →
        items s' = VArr [] ∧ error s' = "No items found." ∧ loading s' = false ∧
        status_of s' = Failed "No items found.") ∧
  (data = VNull →
        items s' = VArr [] ∧ error s' = "Error parsing prompt." ∧
        loading s' = false).
Proof.
  intros Hjson s'. subst s'.
  destruct (invoke_handleParse (Responded res) s) as (o & Hpath & ->).
  inversion Hpath as [| ? Hnone | ? d e Hd Hmem | ? d v Hd Hmem Htruthy
                      | ? d ov Hd Hmem Hfalsy]; subst;
    try (rewrite Hjson in *; simplify_eq); cbn.
  - (* member throws: the body is null *)
    split; [| split].
    + intros m ->. discriminate Hmem.
    + intros Hnotnull. destruct d; try discriminate Hmem. by destruct Hnotnull.
    + done.
  - (* truthy items *)
    split; [| split].
    + intros m -> Hm. cbn in Hmem. by simplify_eq.
    + intros _ Hkey. destruct d; try discriminate Hmem.
      cbn in Hmem, Hkey. injection Hmem as Hm.
      apply bool_decide_eq_false in Hkey. destruct Hkey. by rewrite Hm.
    + intros ->. discriminate Hmem.
  - (* falsy or absent items *)
    split; [| split].
    + intros m -> Hm. cbn in Hmem. simplify_eq. rewrite Hm in Hfalsy. discriminate Hfalsy.
    + done.
    + intros ->. discriminate Hmem.
Qed.

Lemma parse_empty_items_vs_missing_items_witness :
  (let s' := final (invoke handleParse (answer 200 (VObj {["items" := VArr []]})) two_widgets) in
   items s' = VArr [] ∧ error s' = "" ∧ loading s' = false ∧ status_of s' = Idle) ∧
  (let s' := final (invoke handleParse (answer 200 (VObj ∅)) two_widgets) in
   items s' = VArr [] ∧ error s' = "No items found." ∧ loading s' = false ∧
   status_of s' = Failed "No items found.") ∧
  (let s' := final (invoke handleParse (answer 200 VNull) two_widgets) in
   items s' = VArr [] ∧ error s' = "Error parsing prompt." ∧ loading s' = false).
Proof.
  split; [| split].
  - apply (proj1 (parse_empty_items_vs_missing_items two_widgets
                    {| status := 200; res_json := Some (VObj {["items" := VArr []]});
                       res_blob := None |} _ eq_refl) _ eq_refl).
    reflexivity.
  - apply (proj1 (proj2 (parse_empty_items_vs_missing_items two_widgets
                    {| status := 200; res_json := Some (VObj ∅); res_blob := None |}
                    _ eq_refl))).
    + discriminate.
    + reflexivity.
  - apply (proj2 (proj2 (parse_empty_items_vs_missing_items two_widgets
                    {| status := 200; res_json := Some VNull; res_blob := None |}
                    _ eq_refl))).
    reflexivity.
Defined.

(** C3 as stated fails for the body [null]: it is valid JSON without an
    [items] key, and the parse ends with "Error parsing prompt.", not with
    "No items found.". *)
Lemma null_body_is_not_no_items_found :
  has_key VNull "items" = false ∧
  error (final (invoke handleParse (answer 200 VNull) two_widgets)) =
    "Error parsing prompt." ∧
  error (final (invoke handleParse (answer 200 VNull) two_widgets)) ≠
    "No items found.".
Proof.
  split; [reflexivity |]. split; [reflexivity |].
  vm_compute. discriminate.
Qed.

(** C6, the code at an HTTP 500 whose body is JSON: [handleParse] never
    reads the status, so the answer is treated like a 200.  With the body
    [{"error": ...}] the parse ends with "No items found."; with a body that
    carries items it ends with those items and no error.  Only a 500 whose
    body is not JSON ends with "Error parsing prompt.". *)
Theorem handleParse_ignores_http_status :
  ok {| status := 500; res_json := None; res_blob := None |} = false ∧
  error (final (invoke handleParse
                  (answer 500 (VObj {["error" := VStr "Internal Server Error"]}))
                  two_widgets)) = "No items found." ∧
  (let s' := final (invoke handleParse
                      (answer 500 (VObj {["items" := VArr widget_rows]})) initial) in
   error s' = "" ∧ items s' = VArr widget_rows) ∧
  error (final (invoke handleParse
                  (Responded {| status := 500; res_json := None; res_blob := None |})
                  two_widgets)) = "Error parsing prompt." ∧
  (∀ code code' j b s,
      final (invoke handleParse (Responded (mkResponse code j b)) s) =
      final (invoke handleParse (Responded (mkResponse code' j b)) s)).
Proof.
  split; [reflexivity |]. split; [reflexivity |].
  split; [split; reflexivity |]. split; [reflexivity |].
  intros code code' j b s. unfold invoke. cbn.
  destruct j as [data|]; cbn; [| reflexivity].
  destruct (member data "items") as [[v|]|e]; reflexivity.
Qed.

(** ** Exporting *)

(** C4: when the export fails (rejected request, non-2xx response or
    unreadable body) the handler ends with the error "Error generating PDF.",
    not loading, with the item list, prompt and document type it started
    with, and nothing is saved: the request is the only effect. *)
Theorem failed_export_keeps_items (fr : fetch_result) (s : State) :
  export_fails fr = true →
  ∃ l,
    invoke handleGeneratePDF fr s =
      Finished {| prompt := prompt s; docType := docType s; items := items s;
                  loading := false; error := "Error generating PDF." |}
               l (Normal tt) ∧
    effects l = [Sent (pdf_request s)] ∧
    status_of (final (invoke handleGeneratePDF fr s)) = Failed "Error generating PDF.".
Proof.
  intros Hfails.
  destruct (invoke_handleGeneratePDF fr s) as (o & Hpath & ->).
  destruct Hpath as [| res Hok | res Hok Hblob | res b Hok Hblob];
    cbn in Hfails |- *; try by eexists.
  rewrite Hok, Hblob in Hfails. discriminate Hfails.
Qed.

Lemma failed_export_keeps_items_witness :
  ∃ l,
    invoke handleGeneratePDF (answer 500 (VObj ∅)) two_widgets =
      Finished {| prompt := prompt two_widgets; docType := docType two_widgets;
                  items := items two_widgets;
                  loading := false; error := "Error generating PDF." |}
               l (Normal tt) ∧
    effects l = [Sent (pdf_request two_widgets)] ∧
    status_of (final (invoke handleGeneratePDF (answer 500 (VObj ∅)) two_widgets)) =
      Failed "Error generating PDF.".
Proof.
  apply (failed_export_keeps_items (answer 500 (VObj ∅)) two_widgets).
  reflexivity.
Defined.

(** C9, as the code has it: a successful export saves the payload under the
    name made of the document type of the render the button was clicked in
    followed by ".pdf", and leaves the item list and the document type as
    they were; the document types are the labels of [DOC_TYPES], so with the
    quote type selected the file is named "Devis.pdf". *)
Theorem successful_export_saves_docType_pdf
    (s : State) (res : Response) (payload : Blob) :
  ok res = true → res_blob res = Some payload →
  ∃ l,
    invoke handleGeneratePDF (Responded res) s =
      Finished {| prompt := prompt s; docType := docType s; items := items s;
                  loading := false; error := "" |}
               l (Normal tt) ∧
    effects l = [Sent (pdf_request s); Saved (docType s ++ ".pdf") payload] ∧
    (docType s = doc_type_label Quote →
     effects l = [Sent (pdf_request s); Saved "Devis.pdf" payload]).
Proof.
  intros Hok Hblob.
  destruct (invoke_handleGeneratePDF (Responded res) s) as (o & Hpath & ->).
  inversion Hpath as [| ? Hnok | ? Hok' Hnone | ? b Hok' Hsome]; subst;
    try congruence.
  rewrite Hblob in Hsome. injection Hsome as <-.
  eexists; split; [reflexivity |]. cbn.
  split; [reflexivity |]. by intros ->.
Qed.

Lemma successful_export_saves_docType_pdf_witness :
  ∃ l,
    invoke handleGeneratePDF (pdf_answer 200 pdf_bytes) quote_selected =
      Finished {| prompt := prompt quote_selected; docType := docType quote_selected;
                  items := items quote_selected; loading := false; error := "" |}
               l (Normal tt) ∧
    effects l = [Sent (pdf_request quote_selected);
                 Saved (docType quote_selected ++ ".pdf") pdf_bytes] ∧
    (docType quote_selected = doc_type_label Quote →
     effects l = [Sent (pdf_request quote_selected); Saved "Devis.pdf" pdf_bytes]).
Proof.
  apply (successful_export_saves_docType_pdf quote_selected
           {| status := 200; res_json := None; res_blob := Some pdf_bytes |}
           pdf_bytes); reflexivity.
Defined.

(** C9 as stated fails: with the quote type selected a successful export
    saves "Devis.pdf"; no file named "Quote.pdf" is produced, and no document
    type of [DOC_TYPES] yields that name. *)
Lemma quote_export_is_not_named_Quote_pdf :
  effects (log_of (invoke handleGeneratePDF (pdf_answer 200 pdf_bytes) quote_selected)) =
    [Sent (pdf_request quote_selected); Saved "Devis.pdf" pdf_bytes] ∧
  (Saved "Quote.pdf" pdf_bytes ∉
     effects (log_of (invoke handleGeneratePDF (pdf_answer 200 pdf_bytes) quote_selected))) ∧
  Forall (λ t, t ++ ".pdf" ≠ "Quote.pdf") DOC_TYPES.
Proof.
  split; [reflexivity |]. split.
  - change (effects _) with
      [Sent (pdf_request quote_selected); Saved "Devis.pdf" pdf_bytes].
    intros Hin. apply elem_of_cons in Hin as [Heq | Hin]; [discriminate Heq |].
    apply elem_of_cons in Hin as [Heq | Hin]; [discriminate Heq |].
    by apply elem_of_nil in Hin.
  - repeat constructor; discriminate.
Qed.

(** ** The controls *)

(** C7: with an empty prompt the Parse button is disabled, so a click on it
    leaves the whole session as it is: the component state, the pending
    requests and the log of requests sent. *)
Theorem parse_click_with_empty_prompt_is_noop (σ : Session) :
  prompt (st σ) = "" → step ClickParse σ = σ.
Proof.
  intros Hempty. cbn. unfold click, parse_disabled. rewrite Hempty. cbn.
  by rewrite orb_true_r.
Qed.

Lemma parse_click_with_empty_prompt_is_noop_witness :
  step ClickParse init_session = init_session.
Proof.
  apply (parse_click_with_empty_prompt_is_noop init_session). reflexivity.
Defined.

(** The guard is the button's, not the handler's: [handleParse] itself, run
    with an empty prompt, sends a request. *)
Lemma handleParse_is_unguarded :
  effects (log_of (run (handleParse initial) initial [])) =
    [Sent (parse_request initial)].
Proof. reflexivity. Qed.

(** C10: a parse and an export, on every path and also while their request
    is pending, leave the prompt and the document type as they were; in the
    event loop the prompt only changes on a prompt input event and the
    document type only on a selection event. *)
Theorem handlers_keep_prompt_and_docType :
  (∀ fr s,
      prompt (final (invoke handleParse fr s)) = prompt s ∧
      docType (final (invoke handleParse fr s)) = docType s ∧
      prompt (final (run (handleParse s) s [])) = prompt s ∧
      docType (final (run (handleParse s) s [])) = docType s) ∧
  (∀ fr s,
      prompt (final (invoke handleGeneratePDF fr s)) = prompt s ∧
      docType (final (invoke handleGeneratePDF fr s)) = docType s ∧
      prompt (final (run (handleGeneratePDF s) s [])) = prompt s ∧
      docType (final (run (handleGeneratePDF s) s [])) = docType s) ∧
  (∀ σ e, reachable σ → (∀ text, e ≠ ChangePrompt text) →
      prompt (st (step e σ)) = prompt (st σ)) ∧
  (∀ σ e, reachable σ → (∀ t, e ≠ ChangeDocType t) →
      docType (st (step e σ)) = docType (st σ)).
Proof.
  split; [| split; [| split]].
  - intros fr s. destruct (invoke_handleParse fr s) as (o & Hpath & ->).
    apply parse_path_framed in Hpath. cbn.
    by rewrite framed_prompt, framed_docType.
  - intros fr s. destruct (invoke_handleGeneratePDF fr s) as (o & Hpath & ->).
    apply export_path_framed in Hpath. cbn.
    by rewrite framed_prompt, framed_docType.
  - intros σ e Hreach. apply reachable_inv in Hreach. by apply step_frame.
  - intros σ e Hreach. apply reachable_inv in Hreach. by apply step_frame.
Qed.

Lemma handlers_keep_prompt_and_docType_witness :
  prompt (st (step (Resolve 0 (answer 200 (VObj ∅))) typed_and_clicked)) =
    prompt (st typed_and_clicked) ∧
  docType (st (step (Resolve 0 (answer 200 (VObj ∅))) typed_and_clicked)) =
    docType (st typed_and_clicked).
Proof.
  split.
  - apply (proj1 (proj2 (proj2 handlers_keep_prompt_and_docType))).
    + exact typed_and_clicked_reachable.
    + discriminate.
  - apply (proj2 (proj2 (proj2 handlers_keep_prompt_and_docType))).
    + exact typed_and_clicked_reachable.
    + discriminate.
Defined.

(** * Further properties of the component *)

(** ** The event loop keeps one request in flight *)

Lemma click_parse_resumes σ :
  parse_disabled (st σ) = false →
  ∃ k, step ClickParse σ =
         {| st := parsing (st σ); inflight := (inflight σ ++ [k])%list;
            log := (log σ ++ [(parsing (st σ), Sent (parse_request (st σ)))])%list |}
       ∧ resumes_with parse_path k.
Proof.
  intros Hen. cbn. unfold click. rewrite Hen.
  destruct (handleParse_run (st σ) (st σ) (log σ)) as (k & -> & Hk).
  by exists k.
Qed.

Lemma click_generate_resumes σ :
  table_rendered (st σ) = true → generate_disabled (st σ) = false →
  ∃ k, step ClickGeneratePDF σ =
         {| st := exporting (st σ); inflight := (inflight σ ++ [k])%list;
            log := (log σ ++ [(exporting (st σ), Sent (pdf_request (st σ)))])%list |}
       ∧ resumes_with (export_path (st σ)) k.
Proof.
  intros Htab Hen. cbn. unfold click. rewrite Htab, Hen.
  destruct (handleGeneratePDF_run (st σ) (st σ) (log σ)) as (k & -> & Hk).
  by exists k.
Qed.

Lemma parse_path_message fr o s :
  parse_path fr o → error s = "" →
  error (apply_op o s) ∈ MESSAGES ∧ log_op o s = [].
Proof.
  destruct 1; cbn; intros He; rewrite ?He; split; try done;
    solve [repeat constructor].
Qed.

Lemma export_path_message snap fr o s :
  export_path snap fr o → error s = "" → docType snap ∈ DOC_TYPES →
  error (apply_op o s) ∈ MESSAGES ∧ Forall good_effect (log_op o s).
Proof.
  destruct 1; cbn; intros He Hin; rewrite ?He;
    (split; [solve [repeat constructor] |]); repeat constructor.
  by exists (docType snap).
Qed.

Lemma rows_nil s : items s = VArr [] → rows s = [].
Proof. unfold rows. by intros ->. Qed.

Lemma wf_init : wf init_session.
Proof.
  split; [| split; [| split]]; cbn;
    [solve [repeat constructor] .. | by left].
Qed.

Lemma wf_step e σ : wf σ → wf (step e σ).
Proof.
  intros Hwf. pose proof Hwf as (Hdoc & Herr & Hlog & Hflight).
  destruct e as [text | t | | | idx field text | n fr].
  - (* typing in the prompt *)
    by split; [| split; [| split]].
  - (* selecting a document type *)
    cbn. case_bool_decide as Ht; [| done].
    by split; [| split; [| split]].
  - (* the Parse button *)
    destruct (parse_disabled (st σ)) eqn:Hdis.
    { cbn. unfold click. by rewrite Hdis. }
    destruct (click_parse_resumes σ Hdis) as (k & -> & Hk).
    unfold parse_disabled in Hdis. apply orb_false_iff in Hdis as [Hload _].
    destruct Hflight as [[_ Hnil] | (Hbusy & _)]; [| congruence].
    rewrite Hnil. split; [exact Hdoc |]. split; [solve [repeat constructor] |].
    split.
    + apply Forall_app; split; [done |]. constructor; [| constructor].
      do 3 (split; [done |]). by left.
    + right. do 2 (split; [done |]). exists k; split; [done |]. by left.
  - (* the Generate PDF button *)
    destruct (table_rendered (st σ)) eqn:Htab; [| cbn; by rewrite Htab].
    destruct (generate_disabled (st σ)) eqn:Hdis.
    { cbn. unfold click. by rewrite Htab, Hdis. }
    destruct (click_generate_resumes σ Htab Hdis) as (k & -> & Hk).
    destruct Hflight as [[_ Hnil] | (Hbusy & _)];
      [| unfold generate_disabled in Hdis; congruence].
    rewrite Hnil. split; [exact Hdoc |]. split; [solve [repeat constructor] |].
    split.
    + apply Forall_app; split; [done |]. constructor; [| constructor].
      do 3 (split; [done |]). by right.
    + right. do 2 (split; [done |]). exists k; split; [done |].
      right. by exists (st σ).
  - (* editing a cell *)
    cbn. destruct (bool_decide (idx < length (rows (st σ)))%nat) eqn:Hidx; [| done].
    destruct (bool_decide (field ∈ COLUMNS)); [| done]. cbn.
    destruct (handleItemChange _ _ _ _) as [s'|] eqn:Hedit; [| done].
    apply handleItemChange_frame in Hedit as (Hp & Hd & Hl & He).
    split; [cbn; rewrite Hd; exact Hdoc |].
    split; [cbn; rewrite He; exact Herr |].
    split; [exact Hlog |]. cbn. rewrite Hl, He.
    destruct Hflight as [? | (? & ? & k & ? & Hk)]; [by left | right].
    do 2 (split; [done |]). exists k; split; [done |].
    destruct Hk as [[_ Hempty] | ?]; [| by right].
    apply rows_nil in Hempty. rewrite Hempty in Hidx.
    apply bool_decide_eq_true in Hidx. cbn in Hidx. lia.
  - (* the answer to a request *)
    cbn. destruct Hflight as [[_ Hnil] | (Hbusy & Hclear & k & Hone & Hk)].
    { by rewrite Hnil, lookup_nil. }
    rewrite Hone. destruct n as [| n]; [cbn | done].
    destruct Hk as [[Hk _] | (snap & Hk & Hsnap)];
      destruct (Hk fr (st σ) (log σ)) as (o & Hpath & ->); cbn.
    + destruct (parse_path_message _ _ (st σ) Hpath Hclear) as [Hmsg Hnolog].
      pose proof (parse_path_framed _ _ Hpath) as Hframed.
      rewrite Hnolog, app_nil_r.
      split; [| split; [| split]]; cbn; [| done | done | by left].
      by rewrite framed_docType.
    + destruct (export_path_message _ _ _ (st σ) Hpath Hclear Hsnap) as [Hmsg Hgood].
      pose proof (export_path_framed _ _ _ Hpath) as Hframed.
      split; [| split; [| split]]; cbn; [| done | | by left].
      * by rewrite framed_docType.
      * by apply Forall_app.
Qed.

Lemma reachable_wf σ : reachable σ → wf σ.
Proof. induction 1; [apply wf_init | by apply wf_step]. Qed.

Lemma reachable_run_events es σ : reachable σ → reachable (run_events es σ).
Proof.
  revert σ. induction es as [| e es IH]; intros σ Hσ; [done |].
  apply IH. by constructor.
Qed.

Lemma idle_has_no_pending σ :
  reachable σ → loading (st σ) = false → inflight σ = [].
Proof.
  intros Hreach Hidle. apply reachable_wf in Hreach as (_ & _ & _ & Hflight).
  destruct Hflight as [[_ ?] | (Hbusy & _)]; [done | congruence].
Qed.

(** X1: in every session the page can reach, at most one request is
    pending, and the loading flag is set exactly while one is. *)
Theorem single_request_in_flight σ :
  reachable σ →
  (length (inflight σ) ≤ 1)%nat ∧ (loading (st σ) = true ↔ inflight σ ≠ []).
Proof.
  intros Hreach. apply reachable_wf in Hreach as (_ & _ & _ & Hflight).
  destruct Hflight as [[Hload ->] | (Hload & _ & k & -> & _)]; rewrite Hload; cbn.
  - split; [lia |]. split; [discriminate | done].
  - split; [lia |]. split; [discriminate | done].
Qed.

Lemma table_filled_reachable : reachable table_filled.
Proof. unfold table_filled. repeat constructor. Qed.

Lemma single_request_in_flight_witness :
  (length (inflight typed_and_clicked) ≤ 1)%nat ∧
  (loading (st typed_and_clicked) = true ↔ inflight typed_and_clicked ≠ []).
Proof.
  apply (single_request_in_flight typed_and_clicked).
  exact typed_and_clicked_reachable.
Defined.

(** X2: the selected document type is always one of [DOC_TYPES]. *)
Theorem docType_is_always_listed σ :
  reachable σ → docType (st σ) ∈ DOC_TYPES.
Proof. intros Hreach. by apply reachable_wf in Hreach as (? & _). Qed.

Lemma docType_is_always_listed_witness : docType (st table_filled) ∈ DOC_TYPES.
Proof. apply (docType_is_always_listed table_filled), table_filled_reachable. Defined.

(** X3: the error message is always empty or one of the three messages of
    the handlers, and it is empty while a request is pending. *)
Theorem error_is_a_known_message σ :
  reachable σ →
  error (st σ) ∈ MESSAGES ∧ (loading (st σ) = true → error (st σ) = "").
Proof.
  intros Hreach. apply reachable_wf in Hreach as (_ & Herr & _ & Hflight).
  split; [exact Herr |].
  destruct Hflight as [[Hload _] | (_ & Hclear & _)]; [congruence | done].
Qed.

Lemma error_is_a_known_message_witness :
  error (st typed_and_clicked) ∈ MESSAGES ∧
  (loading (st typed_and_clicked) = true → error (st typed_and_clicked) = "").
Proof.
  apply (error_is_a_known_message typed_and_clicked), typed_and_clicked_reachable.
Defined.

(** X4: every request the page has sent is a POST to one of the two
    services, sent while loading with no error shown; every file it has
    saved is named after a document type of [DOC_TYPES], with ".pdf". *)
Theorem effects_are_well_formed σ :
  reachable σ →
  (∀ s req, (s, Sent req) ∈ log σ →
     loading s = true ∧ error s = "" ∧ method req = "POST" ∧
     (url req = PARSE_URL ∨ url req = PDF_URL)) ∧
  (∀ s filename payload, (s, Saved filename payload) ∈ log σ →
     ∃ t, t ∈ DOC_TYPES ∧ filename = t ++ ".pdf").
Proof.
  intros Hreach. apply reachable_wf in Hreach as (_ & _ & Hlog & _).
  rewrite Forall_forall in Hlog.
  split.
  - intros s req Hin. exact (Hlog (s, Sent req) Hin).
  - intros s filename payload Hin. exact (Hlog (s, Saved filename payload) Hin).
Qed.

Lemma parse_request_logged :
  (parsing typed, Sent (parse_request typed)) ∈ log table_filled.
Proof. constructor. Qed.

Lemma effects_are_well_formed_witness :
  loading (parsing typed) = true ∧ error (parsing typed) = "" ∧
  method (parse_request typed) = "POST" ∧
  (url (parse_request typed) = PARSE_URL ∨ url (parse_request typed) = PDF_URL).
Proof.
  exact (proj1 (effects_are_well_formed table_filled table_filled_reachable)
           (parsing typed) (parse_request typed) parse_request_logged).
Defined.

(** ** What the user does while a request is pending *)

Lemma busy_user_event e σ :
  loading (st σ) = true → user_event e →
  inflight (step e σ) = inflight σ ∧ log (step e σ) = log σ ∧
  loading (st (step e σ)) = true ∧ error (st (step e σ)) = error (st σ) ∧
  (items (st σ) = VArr [] → items (st (step e σ)) = VArr []).
Proof.
  intros Hbusy Huser.
  destruct e as [text | t | | | idx field text | n fr]; cbn; try done.
  - by case_bool_decide.
  - unfold click, parse_disabled. by rewrite Hbusy.
  - unfold click, generate_disabled. rewrite Hbusy. by destruct (table_rendered _).
  - destruct (bool_decide (idx < length (rows (st σ)))%nat) eqn:Hidx; [| done].
    destruct (bool_decide (field ∈ COLUMNS)); [| done]. cbn.
    destruct (handleItemChange _ _ _ _) as [s'|] eqn:Hedit; [| done].
    apply handleItemChange_frame in Hedit as (_ & _ & Hl & He). cbn.
    do 2 (split; [done |]). split; [congruence |]. split; [done |].
    intros Hempty. apply rows_nil in Hempty. rewrite Hempty in Hidx.
    apply bool_decide_eq_true in Hidx. cbn in Hidx. lia.
Qed.

Lemma busy_run_events es σ :
  loading (st σ) = true → Forall user_event es →
  inflight (run_events es σ) = inflight σ ∧ log (run_events es σ) = log σ ∧
  loading (st (run_events es σ)) = true ∧
  error (st (run_events es σ)) = error (st σ) ∧
  (items (st σ) = VArr [] → items (st (run_events es σ)) = VArr []).
Proof.
  intros Hbusy Hes. revert σ Hbusy.
  induction Hes as [| e es He _ IH]; intros σ Hbusy; [done |].
  destruct (busy_user_event e σ Hbusy He) as (Hin & Hlog & Hload & Herr & Hitems).
  destruct (IH (step e σ) Hload) as (Hin' & Hlog' & Hload' & Herr' & Hitems').
  change (run_events (e :: es) σ) with (run_events es (step e σ)).
  rewrite Hin', Hlog', Herr', Hin, Hlog, Herr. split_and!; auto.
Qed.

(** X5: once Generate PDF is clicked, whatever the user types, selects or
    edits before the answer arrives, a successful answer saves the payload
    under the document type that was selected at the click, sends nothing
    more, and only clears the loading flag in the state the user has
    reached. *)
Theorem export_names_file_after_clicked_type
    (σ : Session) (es : list event) (res : Response) (payload : Blob) :
  reachable σ → table_rendered (st σ) = true → loading (st σ) = false →
  Forall user_event es → ok res = true → res_blob res = Some payload →
  let σ2 := run_events es (step ClickGeneratePDF σ) in
  let σ3 := step (Resolve 0 (Responded res)) σ2 in
  log σ3 = (log σ ++ [(exporting (st σ), Sent (pdf_request (st σ)));
                      (st σ2, Saved (docType (st σ) ++ ".pdf") payload)])%list ∧
  st σ3 = apply_op (SetLoading false) (st σ2) ∧
  error (st σ3) = "" ∧
  inflight σ3 = [].
Proof.
  intros Hreach Htab Hidle Hes Hok Hblob σ2 σ3.
  pose proof (idle_has_no_pending σ Hreach Hidle) as Hnil.
  destruct (click_generate_resumes σ Htab Hidle) as (k & Hclick & Hk).
  destruct (busy_run_events es (step ClickGeneratePDF σ))
    as (Hin & Hlog & Hload & Herr & _); [by rewrite Hclick | done |].
  fold σ2 in Hin, Hlog, Hload, Herr. rewrite Hclick in Hin, Hlog, Herr.
  cbn in Hin, Hlog, Herr. rewrite Hnil in Hin. cbn in Hin.
  destruct (Hk (Responded res) (st σ2) (log σ2)) as (o & Hpath & Hrun).
  inversion Hpath as [| ? Hnok | ? Hok' Hnone | ? b Hok' Hsome]; subst o;
    try congruence.
  assert (b = payload) as -> by congruence.
  subst σ3. cbn. rewrite Hin. cbn. rewrite Hrun. cbn.
  rewrite Hlog, <- app_assoc. cbn. by rewrite Herr.
Qed.

Lemma while_exporting_user_events : Forall user_event while_exporting.
Proof. repeat constructor. Qed.

Lemma export_names_file_after_clicked_type_witness :
  let σ2 := run_events while_exporting (step ClickGeneratePDF table_filled) in
  let σ3 := step (Resolve 0 (Responded
                 {| status := 200; res_json := None; res_blob := Some pdf_bytes |})) σ2 in
  log σ3 = (log table_filled ++
              [(exporting (st table_filled), Sent (pdf_request (st table_filled)));
               (st σ2, Saved (docType (st table_filled) ++ ".pdf") pdf_bytes)])%list ∧
  st σ3 = apply_op (SetLoading false) (st σ2) ∧
  error (st σ3) = "" ∧
  inflight σ3 = [].
Proof.
  apply (export_names_file_after_clicked_type table_filled while_exporting
           {| status := 200; res_json := None; res_blob := Some pdf_bytes |} pdf_bytes).
  - exact table_filled_reachable.
  - reflexivity.
  - reflexivity.
  - exact while_exporting_user_events.
  - reflexivity.
  - reflexivity.
Defined.

(** X6: once Parse is clicked, whatever the user does before the answer
    arrives, the table stays empty and hidden, nothing more is sent, the
    request carries the prompt as it was at the click, and the answer is
    applied to the state the user has reached. *)
Theorem pending_parse_keeps_table_empty
    (σ : Session) (es : list event) (fr : fetch_result) :
  reachable σ → parse_disabled (st σ) = false → Forall user_event es →
  let σ2 := run_events es (step ClickParse σ) in
  items (st σ2) = VArr [] ∧ table_rendered (st σ2) = false ∧
  loading (st σ2) = true ∧
  log σ2 = (log σ ++ [(parsing (st σ), Sent (parse_request (st σ)))])%list ∧
  ∃ o, parse_path fr o ∧
       step (Resolve 0 fr) σ2 =
         {| st := apply_op (SetLoading false) (apply_op o (st σ2));
            inflight := []; log := log σ2 |}.
Proof.
  intros Hreach Hen Hes σ2.
  assert (loading (st σ) = false) as Hidle.
  { unfold parse_disabled in Hen. by apply orb_false_iff in Hen as [? _]. }
  pose proof (idle_has_no_pending σ Hreach Hidle) as Hnil.
  destruct (click_parse_resumes σ Hen) as (k & Hclick & Hk).
  destruct (busy_run_events es (step ClickParse σ))
    as (Hin & Hlog & Hload & _ & Hitems); [by rewrite Hclick | done |].
  fold σ2 in Hin, Hlog, Hload, Hitems. rewrite Hclick in Hin, Hlog, Hitems.
  cbn in Hin, Hlog, Hitems. rewrite Hnil in Hin. cbn in Hin.
  specialize (Hitems eq_refl).
  split; [done |]. split; [unfold table_rendered; by rewrite (rows_nil _ Hitems) |].
  do 2 (split; [done |]).
  destruct (Hk fr (st σ2) (log σ2)) as (o & Hpath & Hrun).
  exists o; split; [done |].
  cbn. rewrite Hin. cbn. rewrite Hrun.
  destruct Hpath; cbn; by rewrite app_nil_r.
Qed.

Lemma while_parsing_user_events : Forall user_event while_parsing.
Proof. repeat constructor. Qed.

Lemma pending_parse_keeps_table_empty_witness :
  let σ := step (ChangePrompt "2x Widget A at $10") init_session in
  let σ2 := run_events while_parsing (step ClickParse σ) in
  items (st σ2) = VArr [] ∧ table_rendered (st σ2) = false ∧
  loading (st σ2) = true ∧
  log σ2 = (log σ ++ [(parsing (st σ), Sent (parse_request (st σ)))])%list ∧
  ∃ o, parse_path NetworkFailure o ∧
       step (Resolve 0 NetworkFailure) σ2 =
         {| st := apply_op (SetLoading false) (apply_op o (st σ2));
            inflight := []; log := log σ2 |}.
Proof.
  apply (pending_parse_keeps_table_empty
           (step (ChangePrompt "2x Widget A at $10") init_session)
           while_parsing NetworkFailure).
  - repeat constructor.
  - reflexivity.
  - exact while_parsing_user_events.
Defined.

(** ** What [handleParse] accepts and sends *)

(** X7: [handleParse] tests the [items] of the body for truthiness only.
    Any truthy value, an array or not, becomes the item list with no error;
    a value that is present but falsy ([null], [false], [0], the empty
    string) is reported as "No items found." like a missing key. *)
Theorem handleParse_accepts_any_truthy_items
    (s : State) (res : Response) (m : gmap string value) (v : value) :
  res_json res = Some (VObj m) → m !! "items" = Some v →
  let s' := final (invoke handleParse (Responded res) s) in
  loading s' = false ∧
  (truthy v = true → items s' = v ∧ error s' = "") ∧
  (truthy v = false → items s' = VArr [] ∧ error s' = "No items found.").
Proof.
  intros Hjson Hm s'. subst s'.
  destruct (invoke_handleParse (Responded res) s) as (o & Hpath & ->).
  inversion Hpath as [| ? Hnone | ? d e Hd Hmem | ? d w Hd Hmem Htruthy
                      | ? d ov Hd Hmem Hfalsy]; subst;
    rewrite Hjson in *; simplify_eq; cbn in Hmem; simplify_eq; cbn.
  - split; [done |]. split; [done | congruence].
  - split; [done |]. rewrite Hm in Hfalsy. cbn in Hfalsy.
    split; [congruence | done].
Qed.

Lemma handleParse_accepts_any_truthy_items_witness :
  let s' := final (invoke handleParse (answer 200 (VObj {["items" := VStr "none"]}))
                     two_widgets) in
  loading s' = false ∧
  (truthy (VStr "none") = true → items s' = VStr "none" ∧ error s' = "") ∧
  (truthy (VStr "none") = false → items s' = VArr [] ∧ error s' = "No items found.").
Proof.
  apply (handleParse_accepts_any_truthy_items two_widgets
           {| status := 200; res_json := Some (VObj {["items" := VStr "none"]});
              res_blob := None |} {["items" := VStr "none"]} (VStr "none"));
    reflexivity.
Defined.

(** X8: on every path [handleParse] sends exactly one request and saves
    nothing; the request is a POST to the parsing service whose body holds
    the prompt and nothing else, so it does not depend on the document
    type, the items or the error of the state it is invoked in. *)
Theorem handleParse_sends_only_the_prompt (fr : fetch_result) (s : State) :
  effects (log_of (invoke handleParse fr s)) =
    [Sent {| url := PARSE_URL; method := "POST";
             headers := [("Content-Type", "application/json")];
             body := VObj {["prompt" := VStr (prompt s)]} |}] ∧
  (∀ s', prompt s' = prompt s →
     effects (log_of (invoke handleParse fr s')) =
     effects (log_of (invoke handleParse fr s))).
Proof.
  assert (∀ s0, effects (log_of (invoke handleParse fr s0)) =
                [Sent (parse_request s0)]) as Heff.
  { intros s0. by destruct (invoke_handleParse fr s0) as (o & _ & ->). }
  split; [apply Heff |].
  intros s' Hp. rewrite !Heff. unfold parse_request. by rewrite Hp.
Qed.

Lemma handleParse_sends_only_the_prompt_witness :
  effects (log_of (invoke handleParse NetworkFailure
                     {| prompt := prompt two_widgets; docType := "Facture";
                        items := VArr []; loading := true;
                        error := "No items found." |})) =
  effects (log_of (invoke handleParse NetworkFailure two_widgets)).
Proof.
  apply (proj2 (handleParse_sends_only_the_prompt NetworkFailure two_widgets)
           {| prompt := prompt two_widgets; docType := "Facture";
              items := VArr []; loading := true; error := "No items found." |}).
  reflexivity.
Defined.

(** ** Edits *)

(** X9: [handleItemChange] fails exactly when the item list is not an
    array, with a [TypeError], whatever the index, field and value. *)
Theorem handleItemChange_fails_iff_not_array
    (idx : Z) (field : string) (v : value) (s : State) :
  ((∃ e, handleItemChange idx field v s = Throw e) ↔ (∀ l, items s ≠ VArr l)) ∧
  (∀ e, handleItemChange idx field v s = Throw e → ∃ msg, e = TypeError msg).
Proof.
  unfold handleItemChange, change_item, array_map.
  destruct (items s) as [| b | x | t | l | m]; cbn.
  5: { split; [split |].
       - intros [e He]. discriminate He.
       - intros Hno. by destruct (Hno l).
       - intros e He. discriminate He. }
  all: split; [split; [intros _ l0; discriminate | intros _; eauto] |].
  all: intros e [= <-]; eauto.
Qed.

Lemma handleItemChange_fails_iff_not_array_witness :
  ∃ e, handleItemChange 0 "name" (VStr "Widget C")
         {| prompt := "2x Widget A at $10"; docType := "Facture";
            items := VStr "none"; loading := false; error := "" |} = Throw e.
Proof.
  apply (proj1 (handleItemChange_fails_iff_not_array 0 "name" (VStr "Widget C")
                  {| prompt := "2x Widget A at $10"; docType := "Facture";
                     items := VStr "none"; loading := false; error := "" |})).
  intros l. discriminate.
Defined.

Lemma change_item_twice idx f v g w l :
  change_item idx f v (VArr l) ≫= change_item idx g w =
    Normal (VArr (imap (λ i item,
              if bool_decide (Z.of_nat i = idx)
              then VObj (<[g := w]> (<[f := v]> (own_props item))) else item) l)).
Proof.
  rewrite change_item_array. unfold mbind, completion_bind.
  rewrite change_item_array. do 2 f_equal.
  apply list_eq; intros n. rewrite !list_lookup_imap.
  destruct (l !! n); cbn; [| done]. by case_bool_decide.
Qed.

(** X10: two edits of the same cell amount to the second one (so repeating
    an edit changes nothing more), and two edits of different fields of the
    same row, or of different rows, give the same list in either order. *)
Theorem edits_compose (l : list value) (i j : Z) (f g : string) (v w : value) :
  (change_item i f v (VArr l) ≫= change_item i f w = change_item i f w (VArr l)) ∧
  (i ≠ j ∨ f ≠ g →
   change_item i f v (VArr l) ≫= change_item j g w =
   change_item j g w (VArr l) ≫= change_item i f v).
Proof.
  split.
  - rewrite change_item_twice, change_item_array. do 2 f_equal.
    apply imap_ext; intros n item _. cbn.
    case_bool_decide; [| done]. unfold spread_with. by rewrite insert_insert_eq.
  - intros Hne. rewrite !change_item_array. unfold mbind, completion_bind.
    rewrite !change_item_array.
    do 2 f_equal. apply list_eq; intros n. rewrite !list_lookup_imap.
    destruct (l !! n) as [item |]; cbn; [| done]. f_equal.
    destruct (decide (Z.of_nat n = i)) as [Hi | Hi],
             (decide (Z.of_nat n = j)) as [Hj | Hj];
      rewrite ?(bool_decide_true _ Hi), ?(bool_decide_false _ Hi),
              ?(bool_decide_true _ Hj), ?(bool_decide_false _ Hj); try done.
    destruct Hne as [Hne | Hne]; [congruence |].
    unfold spread_with. cbn. f_equal. by apply insert_insert_ne.
Qed.

Lemma edits_compose_witness :
  change_item 0 "quantity" (VStr "3") (VArr widget_rows)
    ≫= change_item 1 "name" (VStr "Widget C") =
  change_item 1 "name" (VStr "Widget C") (VArr widget_rows)
    ≫= change_item 0 "quantity" (VStr "3").
Proof.
  apply (proj2 (edits_compose widget_rows 0 1 "quantity" "name"
                  (VStr "3") (VStr "Widget C"))).
  left. discriminate.
Defined.

(** ** The rows of the table *)

Lemma render_row_null idx : ∃ e, render_row VNull idx = Throw e.
Proof. by eexists. Qed.

Lemma render_row_not_null item idx :
  item ≠ VNull →
  ∃ r, render_row item idx = Normal r ∧ row_key r = idx ∧ row_number r = idx + 1 ∧
       ∀ k, k ∈ COLUMNS →
            ∃ o, member item k = Normal o ∧ row_cell r k = Some (or_empty o).
Proof.
  intros Hnot. unfold render_row, cell.
  assert (∀ k, ∃ o, member item k = Normal o) as Hmem.
  { intros k. destruct item; [by destruct Hnot | by eexists ..]. }
  destruct (Hmem "reference") as [o1 H1], (Hmem "name") as [o2 H2],
           (Hmem "quantity") as [o3 H3], (Hmem "unit_price") as [o4 H4].
  rewrite H1, H2, H3, H4. cbn. eexists; split; [reflexivity |].
  do 2 (split; [reflexivity |]).
  intros k Hk. unfold COLUMNS in Hk.
  repeat (apply elem_of_cons in Hk as [-> | Hk]; [by eexists |]).
  by apply elem_of_nil in Hk.
Qed.

Lemma render_rows_from_cases n l :
  (VNull ∈ l ∧ ∃ e, render_rows_from n l = Throw e) ∨
  ((VNull ∉ l) ∧ ∃ rs, render_rows_from n l = Normal rs).
Proof.
  revert n. induction l as [| item l IH]; intros n.
  { right. split; [apply not_elem_of_nil | by eexists]. }
  cbn [render_rows_from].
  assert (item = VNull ∨ item ≠ VNull) as [-> | Hnot]
    by (destruct item; (by left) || (by right)).
  { left. split; [left | by eexists]. }
  destruct (render_row_not_null item n Hnot) as (r & -> & _).
  destruct (IH (S n)) as [[Hin [e ->]] | [Hnin [rs ->]]].
  - left. split; [by right | by eexists].
  - right. split; [| by eexists].
    intros Hin. apply elem_of_cons in Hin as [? | ?]; [by destruct Hnot | done].
Qed.

Lemma render_rows_from_Normal n l rs :
  render_rows_from n l = Normal rs →
  length rs = length l ∧
  ∀ i r, rs !! i = Some r →
         ∃ item, l !! i = Some item ∧ render_row item (n + i) = Normal r.
Proof.
  revert n rs. induction l as [| item l IH]; intros n rs.
  { intros [= <-]. split; [done |]. intros i r Hr. by rewrite lookup_nil in Hr. }
  cbn [render_rows_from].
  destruct (render_row item n) as [r0 |] eqn:Hrow; [| discriminate].
  cbn. destruct (render_rows_from (S n) l) as [rs0 |] eqn:Hrest; [| discriminate].
  cbn. intros [= <-]. destruct (IH _ _ Hrest) as [Hlen Hrows].
  split; [cbn; by rewrite Hlen |].
  intros [| i] r Hr; cbn in Hr.
  - injection Hr as <-. exists item. by rewrite Nat.add_0_r.
  - destruct (Hrows i r Hr) as (it & Hit & Hrender). exists it.
    split; [done |]. by rewrite Nat.add_succ_r.
Qed.

Lemma render_rows_rows l rs :
  render_rows l = Normal rs →
  length rs = length l ∧
  ∀ i r, rs !! i = Some r →
         row_key r = i ∧ row_number r = i + 1 ∧
         ∃ item, l !! i = Some item ∧ item ≠ VNull ∧ render_row item i = Normal r.
Proof.
  intros Hrs. destruct (render_rows_from_Normal _ _ _ Hrs) as [Hlen Hrows].
  split; [done |]. intros i r Hr.
  destruct (Hrows i r Hr) as (item & Hitem & Hrender). cbn in Hrender.
  assert (item ≠ VNull) as Hnot.
  { intros ->. destruct (render_row_null i) as [e He]. congruence. }
  destruct (render_row_not_null item i Hnot) as (r' & Hr' & Hkey & Hnum & _).
  assert (r' = r) as -> by congruence. eauto 10.
Qed.

Lemma render_rows_no_null l rs : render_rows l = Normal rs → VNull ∉ l.
Proof.
  unfold render_rows. intros Hrs.
  destruct (render_rows_from_cases 0 l) as [[_ [e He]] | [Hnin _]];
    [congruence | done].
Qed.

(** X11: the table renders exactly when no item of the array is [null]
    (reading a property of [null] throws); when it does, there is one row
    per item, in the order of the items, keyed by the position and numbered
    from 1. *)
Theorem render_rows_fails_iff_null_item (l : list value) :
  ((∃ e, render_rows l = Throw e) ↔ VNull ∈ l) ∧
  (∀ rs, render_rows l = Normal rs →
     length rs = length l ∧
     ∀ i r, rs !! i = Some r →
            row_key r = i ∧ row_number r = i + 1 ∧
            ∃ item, l !! i = Some item ∧ item ≠ VNull ∧ render_row item i = Normal r).
Proof.
  split; [| apply render_rows_rows].
  unfold render_rows.
  destruct (render_rows_from_cases 0 l) as [[Hin He] | [Hnin [rs Hrs]]].
  - by split.
  - split; [| done]. intros [e He]. congruence.
Qed.

Lemma render_rows_fails_iff_null_item_witness :
  ∃ rs, render_rows widget_rows = Normal rs ∧ length rs = length widget_rows.
Proof.
  eexists. split; [reflexivity |].
  exact (proj1 (proj2 (render_rows_fails_iff_null_item widget_rows) _ eq_refl)).
Defined.

(** X12: a rendered cell holds the property of the item when that is
    truthy and the empty string otherwise, so a missing property, [null],
    [false], the empty string and the number 0 are all shown as an empty
    cell. *)
Theorem rendered_cell_is_blank_iff_falsy
    (item : value) (idx : nat) (r : Row) (k : string) :
  render_row item idx = Normal r → k ∈ COLUMNS →
  ∃ o, member item k = Normal o ∧
       row_cell r k = Some (or_empty o) ∧
       (truthy_opt o = true → Some (or_empty o) = o) ∧
       (truthy_opt o = false ↔ or_empty o = VStr "").
Proof.
  intros Hrender Hk.
  assert (item ≠ VNull) as Hnot.
  { intros ->. destruct (render_row_null idx) as [e He]. congruence. }
  destruct (render_row_not_null item idx Hnot) as (r' & Hr' & _ & _ & Hcells).
  assert (r' = r) as -> by congruence.
  destruct (Hcells k Hk) as (o & Hmem & Hcell).
  exists o. do 2 (split; [done |]).
  destruct o as [v |]; cbn; [| by split].
  destruct (truthy v) eqn:Hv; [| by split].
  split; [done |]. split; [discriminate |].
  intros ->. cbn in Hv. discriminate Hv.
Qed.

Lemma rendered_cell_is_blank_iff_falsy_witness :
  ∃ o, member (VObj {["quantity" := VNum 0]}) "quantity" = Normal o ∧
       row_cell {| row_key := 0; row_number := 1; cell_reference := VStr "";
                   cell_name := VStr ""; cell_quantity := VStr "";
                   cell_unit_price := VStr "" |} "quantity" = Some (or_empty o) ∧
       (truthy_opt o = true → Some (or_empty o) = o) ∧
       (truthy_opt o = false ↔ or_empty o = VStr "").
Proof.
  apply (rendered_cell_is_blank_iff_falsy (VObj {["quantity" := VNum 0]}) 0).
  - reflexivity.
  - unfold COLUMNS. repeat constructor.
Defined.

(** ** Edits, seen in the table and in the export *)

(** X13: after an edit of a cell of a table that renders, the table still
    renders with as many rows, the edited cell holds the text that was
    typed, every other row is as before and, when the item is an object,
    so is every other cell of the edited row. *)
Theorem edit_then_render
    (s : State) (l : list value) (rs : list Row) (i : nat) (field text : string) :
  items s = VArr l → render_rows l = Normal rs →
  (i < length l)%nat → field ∈ COLUMNS →
  ∃ s' l' rs',
    handleItemChange (Z.of_nat i) field (VStr text) s = Normal s' ∧
    items s' = VArr l' ∧
    render_rows l' = Normal rs' ∧
    length rs' = length rs ∧
    (∀ j, j ≠ i → rs' !! j = rs !! j) ∧
    ∃ r r', rs !! i = Some r ∧ rs' !! i = Some r' ∧
            row_cell r' field = Some (VStr text) ∧
            (∀ m k, l !! i = Some (VObj m) → k ∈ COLUMNS → k ≠ field →
                    row_cell r' k = row_cell r k).
Proof.
  intros Hitems Hrs Hi Hfield.
  destruct (lookup_lt_is_Some_2 l i Hi) as [item Hitem].
  destruct (render_rows_rows l rs Hrs) as [Hlen Hrow].
  pose proof (render_rows_no_null l rs Hrs) as Hnull.
  set (item' := spread_with item field (VStr text)).
  set (l' := <[i := item']> l).
  assert (∀ j, j ≠ i → l' !! j = l !! j) as Hother
    by (intros j Hj; by apply list_lookup_insert_ne).
  assert (l' !! i = Some item') as Hnew by (by apply list_lookup_insert_eq).
  assert (VNull ∉ l') as Hnonull.
  { intros Hin. apply list_elem_of_lookup in Hin as [j Hj].
    destruct (decide (j = i)) as [-> | Hne].
    - rewrite Hnew in Hj. discriminate Hj.
    - rewrite (Hother j Hne) in Hj. apply Hnull.
      apply list_elem_of_lookup. eauto. }
  destruct (render_rows_from_cases 0 l') as [[Hin _] | [_ [rs' Hrs']]]; [done |].
  destruct (render_rows_rows l' rs' Hrs') as [Hlen' Hrow'].
  assert (length rs' = length rs) as Hsame
    by (rewrite Hlen', Hlen; apply length_insert).
  exists {| prompt := prompt s; docType := docType s; items := VArr l';
            loading := loading s; error := error s |}, l', rs'.
  split.
  { unfold handleItemChange. by rewrite Hitems, (change_item_in_range _ _ _ _ _ Hitem). }
  do 3 (split; [done |]). split.
  - intros j Hj. destruct (rs' !! j) as [r' |] eqn:Hr'.
    + destruct (Hrow' j r' Hr') as (_ & _ & it & Hit & _ & Hrender').
      rewrite (Hother j Hj) in Hit.
      destruct (lookup_lt_is_Some_2 rs j) as [r Hr].
      { rewrite Hlen. by eapply lookup_lt_Some. }
      destruct (Hrow j r Hr) as (_ & _ & it0 & Hit0 & _ & Hrender).
      rewrite Hr. congruence.
    + symmetry. apply lookup_ge_None. apply lookup_ge_None in Hr'. lia.
  - destruct (lookup_lt_is_Some_2 rs i) as [r Hr]; [lia |].
    destruct (lookup_lt_is_Some_2 rs' i) as [r' Hr']; [lia |].
    exists r, r'. do 2 (split; [done |]).
    destruct (Hrow' i r' Hr') as (_ & _ & it & Hit & Hnot & Hrender').
    assert (it = item') as -> by congruence.
    destruct (render_row_not_null item' i Hnot) as (r0 & Hr0 & _ & _ & Hcells').
    assert (r0 = r') as -> by congruence.
    split.
    + destruct (Hcells' field Hfield) as (o & Hmem & ->).
      cbn in Hmem. rewrite lookup_insert_eq in Hmem. injection Hmem as <-.
      cbn. by destruct (bool_decide (text = "")) eqn:Hempty;
        [apply bool_decide_eq_true in Hempty as -> |].
    + intros m k Hobj Hk Hne.
      destruct (Hrow i r Hr) as (_ & _ & it0 & Hit0 & Hnot0 & Hrender).
      rename it0 into it.
      assert (it = VObj m) as -> by congruence.
      destruct (render_row_not_null (VObj m) i Hnot0) as (r1 & Hr1 & _ & _ & Hcells).
      assert (r1 = r) as -> by congruence.
      destruct (Hcells' k Hk) as (o' & Hmem' & ->).
      destruct (Hcells k Hk) as (o & Hmem & ->).
      assert (item = VObj m) as Hitem_m by congruence.
      subst item'. rewrite Hitem_m in Hmem'. cbn in Hmem, Hmem'.
      rewrite lookup_insert_ne in Hmem' by done. congruence.
Qed.

Lemma edit_then_render_witness :
  ∃ s' l' rs',
    handleItemChange (Z.of_nat 1) "quantity" (VStr "7") two_widgets = Normal s' ∧
    items s' = VArr l' ∧
    render_rows l' = Normal rs' ∧
    length rs' = 2%nat.
Proof.
  destruct (edit_then_render two_widgets widget_rows
              [ {| row_key := 0; row_number := 1; cell_reference := VStr "";
                   cell_name := VStr "Widget A"; cell_quantity := VNum 2;
                   cell_unit_price := VStr "" |};
                {| row_key := 1; row_number := 2; cell_reference := VStr "";
                   cell_name := VStr "Widget B"; cell_quantity := VNum 5;
                   cell_unit_price := VStr "" |} ]
              1 "quantity" "7")
    as (s' & l' & rs' & H1 & H2 & H3 & H4 & _).
  - reflexivity.
  - reflexivity.
  - cbn. lia.
  - unfold COLUMNS. repeat constructor.
  - exists s', l', rs'. auto.
Defined.

(** X14: what is typed in a cell is what the next export sends: after an
    edit of a rendered cell, a click on Generate PDF in an idle session
    sends one request to the rendering service whose body carries the
    selected document type and the item list in which that item has the
    field set to the typed text, as a string. *)
Theorem edited_cell_is_exported_as_text
    (σ : Session) (idx : nat) (field text : string) :
  reachable σ → loading (st σ) = false →
  (idx < length (rows (st σ)))%nat → field ∈ COLUMNS →
  ∃ l item s',
    items (st σ) = VArr l ∧ l !! idx = Some item ∧
    log (step ClickGeneratePDF (step (EditCell idx field text) σ)) =
      (log σ ++
       [(s', Sent {| url := PDF_URL; method := "POST";
                     headers := [("Content-Type", "application/json")];
                     body := VObj
                       (<["items" :=
                            VArr (<[idx := VObj (<[field := VStr text]> (own_props item))]> l)]>
                          {["docType" := VStr (docType (st σ))]}) |})])%list.
Proof.
  intros Hreach Hidle Hidx Hfield.
  destruct (items (st σ)) as [| | | | l |] eqn:Hitems;
    try (unfold rows in Hidx; rewrite Hitems in Hidx; cbn in Hidx; lia).
  assert (rows (st σ) = l) as Hrows by (unfold rows; by rewrite Hitems).
  rewrite Hrows in Hidx.
  destruct (lookup_lt_is_Some_2 l idx Hidx) as [item Hitem].
  set (s1 := {| prompt := prompt (st σ); docType := docType (st σ);
                items := VArr (<[idx := spread_with item field (VStr text)]> l);
                loading := loading (st σ); error := error (st σ) |}).
  assert (step (EditCell idx field text) σ =
            {| st := s1; inflight := inflight σ; log := log σ |}) as Hedit.
  { cbn. rewrite Hrows, (bool_decide_true _ Hidx), (bool_decide_true _ Hfield). cbn.
    unfold handleItemChange.
    by rewrite Hitems, (change_item_in_range _ _ _ _ _ Hitem). }
  rewrite Hedit.
  destruct (click_generate_resumes {| st := s1; inflight := inflight σ; log := log σ |})
    as (k & -> & _).
  - unfold table_rendered, rows. cbn. rewrite length_insert.
    apply bool_decide_eq_true. lia.
  - exact Hidle.
  - exists l, item, (exporting s1). by do 2 (split; [done |]).
Qed.

Lemma edited_cell_is_exported_as_text_witness :
  ∃ l item s',
    items (st table_filled) = VArr l ∧ l !! 0%nat = Some item ∧
    log (step ClickGeneratePDF (step (EditCell 0 "quantity" "7") table_filled)) =
      (log table_filled ++
       [(s', Sent {| url := PDF_URL; method := "POST";
                     headers := [("Content-Type", "application/json")];
                     body := VObj
                       (<["items" :=
                            VArr (<[0%nat := VObj (<["quantity" := VStr "7"]> (own_props item))]> l)]>
                          {["docType" := VStr (docType (st table_filled))]}) |})])%list.
Proof.
  apply (edited_cell_is_exported_as_text table_filled 0 "quantity" "7").
  - exact table_filled_reachable.
  - reflexivity.
  - vm_compute. lia.
  - unfold COLUMNS. repeat constructor.
Defined.

(** ** What the page never sends *)

Lemma table_rendered_items s :
  table_rendered s = true → ∃ l, items s = VArr l ∧ l ≠ [].
Proof.
  unfold table_rendered, rows. intros Htab. apply bool_decide_eq_true in Htab.
  destruct (items s) as [| | | | l |]; cbn in Htab; try lia.
  exists l. split; [done |]. intros ->. cbn in Htab. lia.
Qed.

Lemma carries_input_step e σ :
  wf σ → Forall carries_input (log σ) → Forall carries_input (log (step e σ)).
Proof.
  intros (Hdoc & _ & _ & Hflight) Hlog.
  destruct e as [text | t | | | idx field text | n fr].
  - done.
  - cbn. by case_bool_decide.
  - destruct (parse_disabled (st σ)) eqn:Hdis.
    { unfold step, click. by rewrite Hdis. }
    destruct (click_parse_resumes σ Hdis) as (k & -> & _). cbn.
    apply Forall_app; split; [done |]. constructor; [| constructor].
    left. split; [done |]. exists (prompt (st σ)). split; [| done].
    unfold parse_disabled in Hdis. apply orb_false_iff in Hdis as [_ Hp].
    cbn in Hp. intros Hempty. by rewrite Hempty in Hp.
  - destruct (table_rendered (st σ)) eqn:Htab; [| unfold step; by rewrite Htab].
    destruct (generate_disabled (st σ)) eqn:Hdis.
    { unfold step, click. by rewrite Htab, Hdis. }
    destruct (click_generate_resumes σ Htab Hdis) as (k & -> & _). cbn.
    apply Forall_app; split; [done |]. constructor; [| constructor].
    right. split; [done |].
    destruct (table_rendered_items _ Htab) as (l & Hitems & Hne).
    exists l, (docType (st σ)). do 2 (split; [done |]). cbn. by rewrite Hitems.
  - cbn. destruct (_ && _); [| done]. by destruct (handleItemChange _ _ _ _).
  - cbn. destruct Hflight as [[_ Hnil] | (_ & _ & k & Hone & Hk)].
    { by rewrite Hnil, lookup_nil. }
    rewrite Hone. destruct n as [| n]; [cbn | done].
    destruct Hk as [[Hk _] | (snap & Hk & _)];
      destruct (Hk fr (st σ) (log σ)) as (o & Hpath & ->); cbn;
      (apply Forall_app; split; [done |]);
      destruct Hpath; cbn; by repeat constructor.
Qed.

Lemma reachable_carries_input σ : reachable σ → Forall carries_input (log σ).
Proof.
  induction 1 as [| σ e Hreach IH]; [constructor |].
  apply carries_input_step; [by apply reachable_wf | done].
Qed.

(** X15: the page never sends an empty request: every parse request it has
    sent carries a non-empty prompt and nothing else, and every export
    request carries a non-empty array of items and a document type of
    [DOC_TYPES]. *)
Theorem requests_are_never_empty σ :
  reachable σ →
  ∀ s req, (s, Sent req) ∈ log σ →
    (url req = PARSE_URL ∧
     ∃ p, p ≠ "" ∧ body req = VObj {["prompt" := VStr p]}) ∨
    (url req = PDF_URL ∧
     ∃ l t, l ≠ [] ∧ t ∈ DOC_TYPES ∧
            body req = VObj (<["items" := VArr l]> {["docType" := VStr t]})).
Proof.
  intros Hreach s req Hin. apply reachable_carries_input in Hreach.
  rewrite Forall_forall in Hreach. exact (Hreach (s, Sent req) Hin).
Qed.

Lemma requests_are_never_empty_witness :
  (url (parse_request typed) = PARSE_URL ∧
   ∃ p, p ≠ "" ∧ body (parse_request typed) = VObj {["prompt" := VStr p]}) ∨
  (url (parse_request typed) = PDF_URL ∧
   ∃ l t, l ≠ [] ∧ t ∈ DOC_TYPES ∧
          body (parse_request typed) =
            VObj (<["items" := VArr l]> {["docType" := VStr t]})).
Proof.
  exact (requests_are_never_empty table_filled table_filled_reachable
           (parsing typed) (parse_request typed) parse_request_logged).
Defined.
